(** * Text layout of the name-overlay PDF tool (src/app.js)

    A shallow embedding of [app.js]: first its two pure parts, the greedy
    line breaker [breakTextIntoLines] (lines 44-72) and the block
    positioning done inside [generatePDF] (lines 150-188); then the page
    script around them (module [App]): the submission of the form, the
    loading of template and font, the download and the banners.

    Conventions of the embedding.
    - A JavaScript string is the list of its UTF-16 code units; [text[i]]
      is [nth_error text i] and [text.length] is [length text].
    - A JavaScript number is an exact rational ([Q]) wherever the script
      only compares numbers or the rounding plays no part (line breaking,
      order and count of the runs, margins); there the arithmetic is the
      rounding-free one. Where the exact value of a coordinate matters,
      lines 163-179 are evaluated in binary64 (module [Binary64]).
    - A call may complete normally or throw; in the layout the font
      object, the external metrics provider, is the only callee that can
      throw. *)

From Equations Require Import Equations.
From Stdlib Require String PrimFloat FloatOps Uint63.
From Stdlib Require Import List Arith ZArith QArith Qabs Qfield Lia Lqa Bool.
Import ListNotations.

Set Implicit Arguments.

(** ** Strings, numbers, completions *)

(** One UTF-16 code unit, as its numeric value. *)
Definition codeUnit : Type := N.

(** [string] of the source: a sequence of code units. *)
Definition jsString : Type := list codeUnit.

(** A thrown JavaScript [Error] with its message. *)
Inductive jsError : Type :=
| Error (message : String.string).

(** The outcome of a call: a returned value or a thrown error. *)
Inductive completion (A : Type) : Type :=
| Normal (a : A)
| Throw (e : jsError).

Arguments Normal {A} a.
Arguments Throw {A} e.

Definition bind {A B : Type} (c : completion A) (k : A -> completion B)
  : completion B :=
  match c with
  | Normal a => k a
  | Throw e => Throw e
  end.

Notation "'let*' x ':=' c 'in' k" := (bind c (fun x => k))
  (at level 10, x name, c at level 100, k at level 200).

(** [a > b] on numbers. *)
Definition Qgtb (a b : Q) : bool := negb (Qle_bool a b).

(** A count or an index as a number. *)
Definition ofNat (n : nat) : Q := inject_Z (Z.of_nat n).

(** ** The font object *)

(** The only method of the pdf-lib font that the layout uses. *)
Record Font : Type := {
  widthOfTextAtSize : jsString -> Q -> completion Q
}.

(** A metrics provider that never throws, given by its width function. *)
Definition pureFont (w : jsString -> Q -> Q) : Font :=
  {| widthOfTextAtSize := fun s size => Normal (w s size) |}.

(** The provider returns a width for every string at size [fontSize]. *)
Definition fontTotal (font : Font) (fontSize : Q) : Prop :=
  forall s, exists w, widthOfTextAtSize font s fontSize = Normal w.

(** The width reported at [fontSize], [0] where the provider throws. *)
Definition widthOr0 (font : Font) (fontSize : Q) (s : jsString) : Q :=
  match widthOfTextAtSize font s fontSize with
  | Normal w => w
  | Throw _ => 0
  end.

(** ** breakTextIntoLines (app.js, lines 44-72)

    [breakTextIntoLines(text, font, fontSize, maxWidth)]; the three
    parameters that stay fixed during the loop come first here. The
    [console.log] calls of lines 67-69 have no effect on the result. *)

Module LoopState.
(** The variables the loop body updates: the array [lines] and the
    buffer [currentLine]. *)
Record t : Type := mk {
  lines : list jsString;
  currentLine : jsString
}.
End LoopState.

(** A value together with the proof of what it is equal to, for [with]. *)
Definition inspect {A : Type} (a : A) : {b : A | a = b} := exist _ a eq_refl.

Section LineBreaker.
Variable font : Font.
Variable fontSize maxWidth : Q.

(** Lines 49-59: one iteration, for the character [char = text[i]]. *)
Definition loopBody (char : codeUnit) (st : LoopState.t)
  : completion LoopState.t :=
  let testLine := LoopState.currentLine st ++ [char] in
  let* testWidth := widthOfTextAtSize font testLine fontSize in
  if Qgtb testWidth maxWidth && (0 <? length (LoopState.currentLine st))%nat
  then Normal (LoopState.mk (LoopState.lines st ++ [LoopState.currentLine st])
                            [char])
  else Normal (LoopState.mk (LoopState.lines st) testLine).

(** Line 48: [for (let i = 0; i < text.length; i++)], entered with
    index [i] and state [st]; [text.length - i] decreases. *)
Equations? forLoop (text : jsString) (i : nat) (st : LoopState.t)
  : completion LoopState.t by wf (length text - i)%nat lt :=
  forLoop text i st with inspect (nth_error text i) => {
    | exist _ None _ := Normal st;
    | exist _ (Some char) _ :=
        let* st' := loopBody char st in forLoop text (S i) st' }.
Proof.
  assert (Hlt : (i < length text)%nat) by (apply nth_error_Some; congruence).
  lia.
Qed.

(** Lines 45-46 and 62-71: the initial state, the last line, the result. *)
Definition breakTextIntoLines (text : jsString) : completion (list jsString) :=
  let* st := forLoop text 0 (LoopState.mk [] []) in
  if (0 <? length (LoopState.currentLine st))%nat
  then Normal (LoopState.lines st ++ [LoopState.currentLine st])
  else Normal (LoopState.lines st).
End LineBreaker.

(** ** The page and the configuration *)

Module Color.
(** An RGB colour: the object [{ r, g, b }] of [CONFIG.textColor] and the
    value that [rgb(r, g, b)] builds. *)
Record t : Type := rgb { r : Q; g : Q; b : Q }.
End Color.

Module DrawText.
(** One [firstPage.drawText(line, { x, y, size, font, color })] call. *)
Record t : Type := mk {
  text : jsString;
  x : Q;
  y : Q;
  size : Q;
  font : Font;
  color : Color.t
}.
End DrawText.

(** The text runs drawn on the page so far, in drawing order. *)
Definition Page : Type := list DrawText.t.

Definition drawText (page : Page) (run : DrawText.t) : Page := page ++ [run].

Module Config.
(** The fields of [CONFIG] that the layout reads. *)
Record t : Type := mk {
  fontSize : Q;
  textColor : Color.t;
  lineHeight : Q;
  topMargin : Q
}.
End Config.

(** Lines 15-24: font size 120, cream text colour, line height 1.4, top
    margin 180. *)
Definition CONFIG : Config.t :=
  Config.mk 120 (Color.rgb 1 (98 # 100) (94 # 100)) (14 # 10) 180.

(** [array.forEach((element, index) => ...)] with a callback that
    updates a state and may throw; [forEachFrom] is the iteration from
    the index [index] on. *)
Fixpoint forEachFrom {A St : Type}
         (callback : A -> nat -> St -> completion St)
         (l : list A) (index : nat) (s : St) : completion St :=
  match l with
  | [] => Normal s
  | a :: l' =>
      let* s' := callback a index s in
      forEachFrom callback l' (S index) s'
  end.

Definition forEach {A St : Type}
           (callback : A -> nat -> St -> completion St)
           (l : list A) (s : St) : completion St :=
  forEachFrom callback l 0%nat s.

(** ** generatePDF, steps 6 to 9 (app.js, lines 150-188)

    The template and font are loaded (steps 1-5); [customFont] is the
    embedded font and [width], [height] the size of the first page. The
    result is the content drawn on the first page. *)

Section GeneratePDF.
Variable config : Config.t.
Variable customFont : Font.
Variable width height : Q.

Definition fontSize : Q := Config.fontSize config.
Definition marginX : Q := 30.
Definition maxLineWidth : Q := width - (marginX * 2).

Definition lineHeight : Q := fontSize * Config.lineHeight config.
Definition targetCenterY : Q := height - Config.topMargin config - fontSize / 2.
Definition totalTextHeight (lines : list jsString) : Q :=
  (ofNat (length lines) - 1) * lineHeight + fontSize.
Definition startY (lines : list jsString) : Q :=
  targetCenterY + (totalTextHeight lines / 2) - fontSize.

Definition textColor : Color.t :=
  Color.rgb (Color.r (Config.textColor config))
            (Color.g (Config.textColor config))
            (Color.b (Config.textColor config)).

(** Lines 174-188: the callback of the [forEach], for the array [lines]
    whose length fixed [startY]. The numbers [x] and [y] are evaluated
    here without rounding; [Binary64.lineX] and [Binary64.lineY] are the
    same lines in binary64. *)
Definition drawLine (lines : list jsString) (line : jsString) (index : nat)
           (firstPage : Page) : completion Page :=
  let y := startY lines - (ofNat index * lineHeight) in
  let* lineWidth := widthOfTextAtSize customFont line fontSize in
  let x := (width - lineWidth) / 2 in
  Normal (drawText firstPage
            (DrawText.mk line x y fontSize customFont textColor)).

Definition drawLines (lines : list jsString) (firstPage : Page)
  : completion Page :=
  forEach (drawLine lines) lines firstPage.

Definition generatePDF (name : jsString) : completion Page :=
  let* lines := breakTextIntoLines customFont fontSize maxLineWidth name in
  drawLines lines [].
End GeneratePDF.

(** ** The loop as a recursion on the characters still to read

    With a provider that does not throw, the loop is a left fold of [step]
    over the characters, and the returned array is the array built so far
    followed by [linesFrom], the lines that the buffer and the unread
    characters still produce. *)

Section Greedy.
Variable width : jsString -> Q.
Variable maxWidth : Q.

(** The test of line 53 for buffer [cur] and next character [char]. *)
Definition overflows (cur : jsString) (char : codeUnit) : bool :=
  Qgtb (width (cur ++ [char])) maxWidth && (0 <? length cur)%nat.

Definition step (st : LoopState.t) (char : codeUnit) : LoopState.t :=
  if overflows (LoopState.currentLine st) char
  then LoopState.mk (LoopState.lines st ++ [LoopState.currentLine st]) [char]
  else LoopState.mk (LoopState.lines st) (LoopState.currentLine st ++ [char]).

Definition finish (st : LoopState.t) : list jsString :=
  if (0 <? length (LoopState.currentLine st))%nat
  then LoopState.lines st ++ [LoopState.currentLine st]
  else LoopState.lines st.

Fixpoint linesFrom (cur : jsString) (rest : jsString) : list jsString :=
  match rest with
  | [] => if (0 <? length cur)%nat then [cur] else []
  | char :: rest' =>
      if overflows cur char
      then cur :: linesFrom [char] rest'
      else linesFrom (cur ++ [char]) rest'
  end.

End Greedy.

(** ** What the [forEach] draws *)

Section Placed.
Variable config : Config.t.
Variable customFont : Font.
Variable width height : Q.

(** The run drawn for [line] at [index]. *)
Definition placed (lines : list jsString) (index : nat) (line : jsString)
  : DrawText.t :=
  DrawText.mk line
    ((width - widthOr0 customFont (fontSize config) line) / 2)
    (startY config height lines - (ofNat index * lineHeight config))
    (fontSize config) customFont (textColor config).

Fixpoint placedFrom (lines : list jsString) (index : nat)
         (todo : list jsString) : list DrawText.t :=
  match todo with
  | [] => []
  | line :: todo' => placed lines index line :: placedFrom lines (S index) todo'
  end.

End Placed.

(** ** Fonts used in the examples *)

(** A monospaced font: every code unit advances by [advance] thousandths
    of the font size. *)
Definition monospaced (advance : Q) : Font :=
  pureFont (fun s size => ofNat (length s) * advance * size / 1000).

(** The width of a text is decided by its first code unit alone: the
    code unit 87 is 100 wide, any other is 10 wide. Appending never
    shrinks it. *)
Definition firstCharWidth (s : jsString) (size : Q) : Q :=
  match s with
  | [] => 0
  | c :: _ => if (c =? 87)%N then 100 else 10
  end.

(** The width of a text is decided by its first code unit and its
    length: after an odd code unit the widths of 1, 2 and more code
    units are 1, 4 and 100; after an even one the width is 1. Appending
    never shrinks it. *)
Definition headGrowthWidth (s : jsString) (size : Q) : Q :=
  match s with
  | [] => 0
  | c :: _ =>
      if N.odd c
      then match length s with
           | 1%nat => 1
           | 2%nat => 4
           | _ => 100
           end
      else 1
  end.

(** A provider that throws on every call. *)
Definition brokenFont (message : String.string) : Font :=
  {| widthOfTextAtSize := fun _ _ => Throw (Error message) |}.

(** * The page script around the layout (app.js, lines 77-271)

    The document, the network and pdf-lib are outside the script. What
    the script reads from them is a parameter of a request ([Env]); what
    it changes is the state [App.t]: the font cache, the shown elements,
    and the calls that leave the page (fetches and downloads), in order.
    One request is modelled at a time, each [await] as a plain call. The
    [console] calls and the removal of the download link after three
    seconds leave the state untouched. *)

(** An [ArrayBuffer]. *)
Definition bytes : Type := list Byte.byte.

(** A text shown on the page or used as a file name: the concatenation
    of its fragments, each written either as in the UTF-8 source file
    (literals, error messages) or in UTF-16 code units (strings read
    from the page). *)
Inductive Fragment : Type :=
| Utf8 (s : String.string)
| Utf16 (s : jsString).

Definition Text : Type := list Fragment.

(** White space and line terminators, the code units that
    [String.prototype.trim] removes. *)
Definition isWhiteSpace (c : codeUnit) : bool :=
  ((c =? 9) || (c =? 10) || (c =? 11) || (c =? 12) || (c =? 13)
   || (c =? 32) || (c =? 160) || (c =? 5760)
   || ((8192 <=? c) && (c <=? 8202))
   || (c =? 8232) || (c =? 8233) || (c =? 8239) || (c =? 8287)
   || (c =? 12288) || (c =? 65279))%N.

Fixpoint trimStart (s : jsString) : jsString :=
  match s with
  | [] => []
  | c :: s' => if isWhiteSpace c then trimStart s' else s
  end.

Definition trimEnd (s : jsString) : jsString := rev (trimStart (rev s)).

(** [s.trim()]. *)
Definition trim (s : jsString) : jsString := trimEnd (trimStart s).

Module UI.
(** The elements of lines 7-12 and the [success] element, with what the
    script reads or writes of them: the value of the input, the text of
    the counter, the presence of the class [hidden], the texts of the
    two banners, the [disabled] flag of the button. *)
Record t : Type := mk {
  nameInputValue : jsString;
  charCountText : nat;
  loadingHidden : bool;
  formHidden : bool;
  errorHidden : bool;
  errorText : Text;
  successHidden : bool;
  successText : Text;
  generateBtnDisabled : bool
}.
End UI.

(** A call that leaves the page. *)
Inductive Event : Type :=
| Fetch (path : String.string)
| Download (filename : Text) (pdfBytes : bytes).

Module App.
Import String.StringSyntax.
Local Open Scope string_scope.

(** The state of the script: [cachedFontBytes] (line 34), the page
    elements, and the calls made so far. *)
Record t : Type := mk {
  cachedFontBytes : option bytes;
  ui : UI.t;
  events : list Event
}.

(** The answer to a [fetch]: [response.ok] and [response.arrayBuffer()]. *)
Record Response : Type := {
  ok : bool;
  arrayBuffer : completion bytes
}.

(** A loaded document: the sizes [(width, height)] of its pages. *)
Record PDFDocument : Type := {
  pageSizes : list (Q * Q)
}.

(** What the network and pdf-lib answer during one request;
    [undefinedTypeError] is the error of reading a property of
    [undefined]. *)
Record Env : Type := {
  fetch : String.string -> completion Response;
  load : bytes -> completion PDFDocument;
  embedFont : PDFDocument -> bytes -> completion Font;
  save : PDFDocument -> Page -> completion bytes;
  undefinedTypeError : jsError
}.

(** A step of the script: it returns or throws, and leaves a state. *)
Definition Action (A : Type) : Type := t -> completion A * t.

Definition ret {A : Type} (a : A) : Action A := fun st => (Normal a, st).

Definition throw {A : Type} (e : jsError) : Action A :=
  fun st => (Throw e, st).

Definition andThen {A B : Type} (m : Action A) (k : A -> Action B)
  : Action B :=
  fun st =>
    match m st with
    | (Normal a, st') => k a st'
    | (Throw e, st') => (Throw e, st')
    end.

Notation "x <- m ;; k" := (andThen m (fun x => k))
  (at level 61, m at next level, right associativity).
Notation "m ;;; k" := (andThen m (fun _ => k))
  (at level 61, right associativity).

(** The outcome of a call outside the script. *)
Definition await {A : Type} (c : completion A) : Action A :=
  fun st => (c, st).

Definition updateUI (f : UI.t -> UI.t) : Action unit :=
  fun st => (Normal tt, mk (cachedFontBytes st) (f (ui st)) (events st)).

Definition record (ev : Event) : Action unit :=
  fun st => (Normal tt, mk (cachedFontBytes st) (ui st) (events st ++ [ev])).

(** [try { body } catch (error) { handler }]. *)
Definition tryCatch {A : Type} (body : Action A) (handler : jsError -> Action A)
  : Action A :=
  fun st =>
    match body st with
    | (Normal a, st') => (Normal a, st')
    | (Throw e, st') => handler e st'
    end.

(** [try { body } finally { finalizer }]. *)
Definition tryFinally {A : Type} (body : Action A) (finalizer : Action unit)
  : Action A :=
  fun st =>
    match body st with
    | (r, st') =>
        match finalizer st' with
        | (Normal _, st'') => (r, st'')
        | (Throw e, st'') => (Throw e, st'')
        end
    end.

Definition message (e : jsError) : String.string :=
  match e with Error m => m end.

(** Lines 259-263 and 268-271. *)
Definition showSuccess (text : Text) (u : UI.t) : UI.t :=
  UI.mk (UI.nameInputValue u) (UI.charCountText u) (UI.loadingHidden u)
        (UI.formHidden u) (UI.errorHidden u) (UI.errorText u)
        false text (UI.generateBtnDisabled u).

Definition hideSuccess (u : UI.t) : UI.t :=
  UI.mk (UI.nameInputValue u) (UI.charCountText u) (UI.loadingHidden u)
        (UI.formHidden u) (UI.errorHidden u) (UI.errorText u)
        true (UI.successText u) (UI.generateBtnDisabled u).

(** Lines 244-254. *)
Definition showError (text : Text) (u : UI.t) : UI.t :=
  UI.mk (UI.nameInputValue u) (UI.charCountText u) (UI.loadingHidden u)
        (UI.formHidden u) false text
        (UI.successHidden u) (UI.successText u) (UI.generateBtnDisabled u).

Definition hideError (u : UI.t) : UI.t :=
  UI.mk (UI.nameInputValue u) (UI.charCountText u) (UI.loadingHidden u)
        (UI.formHidden u) true (UI.errorText u)
        (UI.successHidden u) (UI.successText u) (UI.generateBtnDisabled u).

(** Lines 232-239: [classList.toggle('hidden', force)] sets the class
    when [force] is true and removes it otherwise. *)
Definition showLoading (show : bool) (u : UI.t) : UI.t :=
  let u' :=
    UI.mk (UI.nameInputValue u) (UI.charCountText u) (negb show) show
          (UI.errorHidden u) (UI.errorText u)
          (UI.successHidden u) (UI.successText u) (UI.generateBtnDisabled u) in
  if show then hideSuccess u' else u'.

(** [generateBtn.disabled = flag]. *)
Definition setDisabled (flag : bool) (u : UI.t) : UI.t :=
  UI.mk (UI.nameInputValue u) (UI.charCountText u) (UI.loadingHidden u)
        (UI.formHidden u) (UI.errorHidden u) (UI.errorText u)
        (UI.successHidden u) (UI.successText u) flag.

(** Lines 79-81: the listener of [input] events. *)
Definition updateCharCount (u : UI.t) : UI.t :=
  UI.mk (UI.nameInputValue u) (length (UI.nameInputValue u))
        (UI.loadingHidden u) (UI.formHidden u) (UI.errorHidden u)
        (UI.errorText u) (UI.successHidden u) (UI.successText u)
        (UI.generateBtnDisabled u).

(** Line 226: the text of the success banner. *)
Definition generatedText (filename : Text) : Text :=
  Utf8 "PDF 已產生！檔案名稱：" :: filename.

(** Lines 198-227: the click on the link starts the download, then the
    success banner is shown. *)
Definition downloadPDF (pdfBytes : bytes) (filename : Text) : Action unit :=
  record (Download filename pdfBytes) ;;;
  updateUI (showSuccess (generatedText filename)).

Definition pdfPath : String.string := "Cat.pdf".

(** [CONFIG.fontPath], line 16. *)
Definition fontPath : String.string := "ChenYuluoyan-Thin-Monospaced.ttf".

Definition fetchFrom (env : Env) (path : String.string) : Action Response :=
  record (Fetch path) ;;; await (fetch env path).

(** Line 128 and line 136: the messages of the two errors thrown. *)
Definition templateError : jsError :=
  Error (String.append "無法載入 PDF 模板: " pdfPath).

Definition fontError : jsError :=
  Error (String.append "無法載入字體檔案: " fontPath).

(** Lines 132-139: the font bytes, fetched when the cache is empty and
    kept in [cachedFontBytes]; the value is the one that line 148 reads
    from the cache. *)
Definition loadFont (env : Env) : Action bytes :=
  fun st =>
    match cachedFontBytes st with
    | Some fontBytes => (Normal fontBytes, st)
    | None =>
        (fontResponse <- fetchFrom env fontPath ;;
         if negb (ok fontResponse)
         then throw fontError
         else
           fontBytes <- await (arrayBuffer fontResponse) ;;
           (fun st' => (Normal fontBytes,
                        mk (Some fontBytes) (ui st') (events st')))) st
    end.

(** Line 192: the name of the downloaded file. *)
Definition filenameFor (name : jsString) : Text :=
  [Utf8 "給"; Utf16 name; Utf8 "的禮物.pdf"].

(** Lines 121-193, with [CONFIG] as the configuration. *)
Definition generatePDF (env : Env) (name : jsString) : Action unit :=
  pdfResponse <- fetchFrom env pdfPath ;;
  if negb (ok pdfResponse)
  then throw templateError
  else
    pdfBytes <- await (arrayBuffer pdfResponse) ;;
    fontBytes <- loadFont env ;;
    pdfDoc <- await (load env pdfBytes) ;;
    customFont <- await (embedFont env pdfDoc fontBytes) ;;
    match nth_error (pageSizes pdfDoc) 0 with
    | None => throw (undefinedTypeError env)
    | Some (width, height) =>
        lines <- await (breakTextIntoLines customFont (fontSize CONFIG)
                                           (maxLineWidth width) name) ;;
        firstPage <- await (drawLines CONFIG customFont width height
                                      lines []) ;;
        modifiedPdfBytes <- await (save env pdfDoc firstPage) ;;
        downloadPDF modifiedPdfBytes (filenameFor name)
    end.

(** Line 97 and line 111: the texts of the error banner. *)
Definition enterNameText : Text := [Utf8 "請輸入名字"].

Definition failureText (error : jsError) : Text :=
  [Utf8 "產生 PDF 時發生錯誤："; Utf8 (message error)].

(** Lines 90-116. *)
Definition handleSubmit (env : Env) : Action unit :=
  fun st =>
    let name := trim (UI.nameInputValue (ui st)) in
    match name with
    | [] => updateUI (showError enterNameText) st
    | _ :: _ =>
        tryFinally
          (tryCatch
             (updateUI (showLoading true) ;;;
              updateUI hideError ;;;
              updateUI (setDisabled true) ;;;
              generatePDF env name)
             (fun error => updateUI (showError (failureText error))))
          (updateUI (showLoading false) ;;;
           updateUI (setDisabled false))
          st
    end.

(** What happens on the page: the user edits the input, which fires the
    [input] listener, or submits the form, answered by [env]. *)
Inductive PageEvent : Type :=
| Input (value : jsString)
| Submit (env : Env).

Definition setValue (value : jsString) (u : UI.t) : UI.t :=
  UI.mk value (UI.charCountText u) (UI.loadingHidden u) (UI.formHidden u)
        (UI.errorHidden u) (UI.errorText u) (UI.successHidden u)
        (UI.successText u) (UI.generateBtnDisabled u).

Definition dispatch (st : t) (ev : PageEvent) : t :=
  match ev with
  | Input value =>
      mk (cachedFontBytes st) (updateCharCount (setValue value (ui st)))
         (events st)
  | Submit env => snd (handleSubmit env st)
  end.

(** The state after a sequence of page events. *)
Definition session (evs : list PageEvent) (st : t) : t :=
  fold_left dispatch evs st.
End App.

(** A request that meets no failure: every fetch is answered, the
    template has one page of 595 by 842, the font is monospaced. *)
Definition demoEnv : App.Env :=
  {| App.fetch := fun _ => Normal {| App.ok := true;
                                     App.arrayBuffer := Normal [] |};
     App.load := fun _ => Normal {| App.pageSizes := [(595, 842)] |};
     App.embedFont := fun _ _ => Normal (monospaced 1000);
     App.save := fun _ _ => Normal [];
     App.undefinedTypeError := Error String.EmptyString |}.

(** The page at rest, with the given value in the input. *)
Definition restingUI (value : jsString) : UI.t :=
  UI.mk value (length value) true false true [] true [] false.

(** * Characters of more than one code unit

    [text[i]] is a UTF-16 code unit. A character outside the Basic
    Multilingual Plane is a surrogate pair, a high surrogate followed by
    a low one; [codePoints] cuts a string into its characters the way
    the string iterator ([for ... of], [Array.from]) does. *)

Definition isHighSurrogate (c : codeUnit) : bool :=
  ((55296 <=? c) && (c <=? 56319))%N.

Definition isLowSurrogate (c : codeUnit) : bool :=
  ((56320 <=? c) && (c <=? 57343))%N.

Definition isSurrogate (c : codeUnit) : bool :=
  isHighSurrogate c || isLowSurrogate c.

Fixpoint codePoints (s : jsString) : list jsString :=
  match s with
  | [] => []
  | c :: rest =>
      match rest with
      | d :: rest' =>
          if isHighSurrogate c && isLowSurrogate d
          then [c; d] :: codePoints rest'
          else [c] :: codePoints rest
      | [] => [[c]]
      end
  end.

(** * The positioning in binary64 (app.js, lines 163-179)

    The numbers of the script are IEEE 754 binary64 values, and lines
    163-179 round after every operation. The definitions above evaluate
    these lines without rounding; the ones below evaluate them with the
    primitive binary64 operations, in the order and with the
    parenthesization of the source. *)

Module Binary64.
Import PrimFloat FloatOps SpecFloat.

(** The rational number that a binary64 value stands for; infinities and
    NaN stand for none. *)
Definition value (f : float) : option Q :=
  match Prim2SF f with
  | S754_zero _ => Some 0
  | S754_finite s m e =>
      Some ((if s then -1 else 1) * inject_Z (Z.pos m) * 2 ^ e)
  | _ => None
  end.



(** A count or an index (below 2^53) as a binary64 value. *)
Definition ofNat (n : nat) : float := of_uint63 (Uint63.of_Z (Z.of_nat n)).

Definition two : float := ofNat 2.

Module Config.
Record t : Type := mk {
  fontSize : float;
  lineHeight : float;
  topMargin : float
}.
End Config.

(** Lines 17, 19 and 23: 120, 1.4 (the binary64 value nearest to it) and
    180. *)
Definition CONFIG : Config.t :=
  Config.mk (ofNat 120) 0x1.6666666666666p+0%float (ofNat 180).

Section Positions.
Variable config : Config.t.
Variable width height : float.
(** [lines.length]. *)
Variable lineCount : nat.

Definition fontSize : float := Config.fontSize config.

(** Line 163. *)
Definition lineHeight : float := (fontSize * Config.lineHeight config)%float.

(** Line 165. *)
Definition targetCenterY : float :=
  (height - Config.topMargin config - fontSize / two)%float.

(** Line 167. *)
Definition totalTextHeight : float :=
  ((ofNat lineCount - ofNat 1) * lineHeight + fontSize)%float.

(** Line 169. *)
Definition startY : float :=
  (targetCenterY + (totalTextHeight / two) - fontSize)%float.

(** Line 175: [y] of the line at [index]. *)
Definition lineY (index : nat) : float :=
  (startY - (ofNat index * lineHeight))%float.

End Positions.
End Binary64.

(** * Properties *)

(** ** The loop is the fold, the result is [linesFrom] *)

Section FoldFacts.
Variable width : jsString -> Q.
Variable maxWidth : Q.

Lemma finish_fold_step (rest : jsString) (st : LoopState.t) :
  finish (fold_left (step width maxWidth) rest st)
  = LoopState.lines st
    ++ linesFrom width maxWidth (LoopState.currentLine st) rest.
Proof.
  revert st; induction rest as [| char rest IH]; intros [ls cur]; simpl.
  - unfold finish; simpl. destruct (0 <? length cur)%nat; simpl;
      [reflexivity | now rewrite app_nil_r].
  - rewrite IH. unfold step; simpl.
    destruct (overflows width maxWidth cur char); simpl; [| reflexivity].
    now rewrite <- app_assoc.
Qed.
End FoldFacts.

Lemma skipn_nth_error {A : Type} (l : list A) (i : nat) (a : A) :
  nth_error l i = Some a -> skipn i l = a :: skipn (S i) l.
Proof.
  revert i; induction l as [| b l IH]; intros [| i] H; simpl in *;
    try discriminate.
  - now inversion H.
  - now apply IH.
Qed.

Section LoopAsFold.
Variable font : Font.
Variable fontSize maxWidth : Q.
Hypothesis total : fontTotal font fontSize.

Lemma loopBody_step (char : codeUnit) (st : LoopState.t) :
  loopBody font fontSize maxWidth char st
  = Normal (step (widthOr0 font fontSize) maxWidth st char).
Proof.
  unfold loopBody, step, overflows, widthOr0.
  destruct (total (LoopState.currentLine st ++ [char])) as [w Hw].
  rewrite Hw; simpl.
  destruct (Qgtb w maxWidth && _); reflexivity.
Qed.

Lemma forLoop_fold (text : jsString) (i : nat) (st : LoopState.t) :
  forLoop font fontSize maxWidth text i st
  = Normal (fold_left (step (widthOr0 font fontSize) maxWidth)
                      (skipn i text) st).
Proof.
  funelim (forLoop font fontSize maxWidth text i st).
  - (* text[i] is read: one body execution, then the loop at i+1 *)
    rewrite loopBody_step by assumption. simpl.
    match goal with IH : forall st', forLoop _ _ _ _ _ st' = _ |- _ =>
      rewrite IH end.
    match goal with e : nth_error _ _ = Some _ |- _ =>
      rewrite (skipn_nth_error _ _ e) end.
    reflexivity.
  - (* i = text.length: the loop exits *)
    match goal with e : nth_error _ _ = None |- _ =>
      pose proof (proj1 (nth_error_None _ _) e) as Hexit end.
    rewrite skipn_all2 by exact Hexit. reflexivity.
Qed.

Lemma breakTextIntoLines_linesFrom (text : jsString) :
  breakTextIntoLines font fontSize maxWidth text
  = Normal (linesFrom (widthOr0 font fontSize) maxWidth [] text).
Proof.
  unfold breakTextIntoLines. rewrite forLoop_fold. cbn [bind skipn].
  transitivity
    (Normal (finish (fold_left (step (widthOr0 font fontSize) maxWidth)
                               text (LoopState.mk [] [])))).
  - unfold finish. destruct (0 <? _)%nat; reflexivity.
  - rewrite finish_fold_step. reflexivity.
Qed.
End LoopAsFold.

(** ** Facts on the comparison and on [linesFrom] *)

Lemma Qgtb_true (a b : Q) : Qgtb a b = true <-> b < a.
Proof.
  unfold Qgtb. rewrite negb_true_iff. split; intro H.
  - apply Qnot_le_lt. intro Hle. apply Qle_bool_iff in Hle. congruence.
  - destruct (Qle_bool a b) eqn:E; [| reflexivity].
    apply Qle_bool_iff in E. exfalso. exact (Qlt_not_le _ _ H E).
Qed.

Lemma Qgtb_false (a b : Q) : Qgtb a b = false <-> a <= b.
Proof.
  unfold Qgtb. rewrite negb_false_iff. apply Qle_bool_iff.
Qed.

Lemma length_pos_nonempty {A : Type} (l : list A) :
  (0 <? length l)%nat = true <-> l <> [].
Proof.
  destruct l; simpl; split; intro H; try congruence; try reflexivity.
  discriminate.
Qed.

Section GreedyFacts.
Variable width : jsString -> Q.

Lemma linesFrom_concat (maxWidth : Q) (rest cur : jsString) :
  concat (linesFrom width maxWidth cur rest) = cur ++ rest.
Proof.
  revert cur; induction rest as [| char rest IH]; intro cur; simpl.
  - destruct cur; simpl; [reflexivity | now rewrite !app_nil_r].
  - destruct (overflows width maxWidth cur char); simpl; rewrite IH.
    + reflexivity.
    + now rewrite <- app_assoc.
Qed.

Lemma linesFrom_nonempty_lines (maxWidth : Q) (rest cur : jsString) :
  Forall (fun line => line <> []) (linesFrom width maxWidth cur rest).
Proof.
  revert cur; induction rest as [| char rest IH]; intro cur; simpl.
  - destruct cur; simpl; constructor; [discriminate | constructor].
  - destruct (overflows width maxWidth cur char) eqn:E.
    + constructor; [| apply IH].
      unfold overflows in E. apply andb_true_iff in E as [_ E].
      now apply length_pos_nonempty.
    + apply IH.
Qed.

Lemma linesFrom_nonempty (maxWidth : Q) (rest cur : jsString) :
  cur ++ rest <> [] -> linesFrom width maxWidth cur rest <> [].
Proof.
  revert cur; induction rest as [| char rest IH]; intros cur H; simpl.
  - rewrite app_nil_r in H. destruct cur; [congruence | discriminate].
  - destruct (overflows width maxWidth cur char); [discriminate |].
    apply IH. destruct cur; discriminate.
Qed.

(** With a width that does not shrink when a character is put in front
    of a non-empty string, it does not shrink under any prefix. *)
Lemma prepend_le (Hpre : forall c s, s <> [] -> width s <= width (c :: s))
      (x s : jsString) :
  s <> [] -> width s <= width (x ++ s).
Proof.
  intro Hs. induction x as [| c x IH]; simpl.
  - apply Qle_refl.
  - eapply Qle_trans; [exact IH |]. apply Hpre.
    destruct x; [exact Hs | discriminate].
Qed.
End GreedyFacts.

(** ** A character wider than the limit *)

Section WideCharacter.
Variable width : jsString -> Q.
Variable maxWidth : Q.
Hypothesis append_le : forall s c, width s <= width (s ++ [c]).
Hypothesis prepend_one_le : forall c s, s <> [] -> width s <= width (c :: s).
Variable wide : codeUnit.
Hypothesis wide_exceeds : maxWidth < width [wide].

(** The buffer [[wide]] is committed at the next character. *)
Lemma linesFrom_after_wide (post : jsString) :
  linesFrom width maxWidth [wide] post
  = [wide] :: linesFrom width maxWidth [] post.
Proof.
  destruct post as [| d post]; simpl; [reflexivity |].
  unfold overflows at 1 2; simpl.
  rewrite andb_false_r, andb_true_r.
  assert (H : Qgtb (width [wide; d]) maxWidth = true).
  { apply Qgtb_true. eapply Qlt_le_trans; [exact wide_exceeds |].
    exact (append_le [wide] d). }
  now rewrite H.
Qed.

(** A non-empty buffer is committed when [wide] is read. *)
Lemma overflows_wide (cur : jsString) :
  cur <> [] -> overflows width maxWidth cur wide = true.
Proof.
  intro Hcur. unfold overflows. apply andb_true_iff. split.
  - apply Qgtb_true. eapply Qlt_le_trans; [exact wide_exceeds |].
    apply (prepend_le width prepend_one_le cur). discriminate.
  - now apply length_pos_nonempty.
Qed.

Lemma linesFrom_wide (pre post cur : jsString) :
  linesFrom width maxWidth cur (pre ++ wide :: post)
  = linesFrom width maxWidth cur pre
    ++ [wide] :: linesFrom width maxWidth [] post.
Proof.
  revert cur; induction pre as [| d pre IH]; intro cur; simpl.
  - destruct cur as [| c0 cur].
    + unfold overflows; simpl. rewrite andb_false_r.
      apply linesFrom_after_wide.
    + rewrite overflows_wide by discriminate. simpl.
      now rewrite linesFrom_after_wide.
  - destruct (overflows width maxWidth cur d); simpl; now rewrite IH.
Qed.
End WideCharacter.

(** ** Line count against the limit *)

Section LineCount.
Variable width : jsString -> Q.
Hypothesis prepend_one_le : forall c s, s <> [] -> width s <= width (c :: s).

(** If the shorter buffer overflows under the larger limit, the longer
    buffer overflows under the smaller one. *)
Lemma overflows_longer (w1 w2 : Q) (x cur : jsString) (char : codeUnit) :
  w1 <= w2 ->
  overflows width w2 cur char = true ->
  overflows width w1 (x ++ cur) char = true.
Proof.
  intros Hw H. unfold overflows in *.
  apply andb_true_iff in H as [Hgt Hlen].
  apply andb_true_iff. split.
  - apply Qgtb_true in Hgt. apply Qgtb_true.
    eapply Qle_lt_trans; [exact Hw |].
    eapply Qlt_le_trans; [exact Hgt |].
    rewrite <- app_assoc.
    apply (prepend_le width prepend_one_le x). destruct cur; discriminate.
  - apply length_pos_nonempty in Hlen. apply length_pos_nonempty.
    destruct x; [exact Hlen | discriminate].
Qed.

(** Both halves of the exchange argument, by one induction on the
    unread characters: a larger limit and a later start of the buffer
    never cost a line, and an earlier start costs at most one. *)
Lemma linesFrom_count (rest : jsString) :
  (forall w1 w2 x cur, w1 <= w2 ->
      (length (linesFrom width w2 cur rest)
       <= length (linesFrom width w1 (x ++ cur) rest))%nat)
  /\
  (forall w x cur,
      (length (linesFrom width w (x ++ cur) rest)
       <= S (length (linesFrom width w cur rest)))%nat).
Proof.
  induction rest as [| char rest [IHa IHb]]; split.
  - intros w1 w2 x cur _. simpl.
    destruct cur; simpl; [lia |].
    destruct x; simpl; lia.
  - intros w x cur. simpl.
    destruct (0 <? length (x ++ cur))%nat, (0 <? length cur)%nat; simpl; lia.
  - intros w1 w2 x cur Hw. simpl.
    destruct (overflows width w2 cur char) eqn:E2.
    + rewrite (overflows_longer x cur char Hw E2). simpl.
      apply le_n_S. apply (IHa w1 w2 [] [char] Hw).
    + destruct (overflows width w1 (x ++ cur) char) eqn:E1.
      * simpl.
        eapply Nat.le_trans; [apply (IHb w2 cur [char]) |].
        apply le_n_S. apply (IHa w1 w2 [] [char] Hw).
      * rewrite <- app_assoc. apply IHa. exact Hw.
  - intros w x cur. simpl.
    destruct (overflows width w cur char) eqn:E2.
    + rewrite (overflows_longer x cur char (Qle_refl w) E2). simpl. lia.
    + destruct (overflows width w (x ++ cur) char) eqn:E1.
      * simpl. apply le_n_S.
        apply (IHa w w cur [char] (Qle_refl w)).
      * rewrite <- app_assoc. apply IHb.
Qed.
End LineCount.

(** ** The runs drawn by the [forEach] *)

Section Placement.
Variable config : Config.t.
Variable customFont : Font.
Variable width height : Q.
Hypothesis total : fontTotal customFont (fontSize config).

Lemma drawLine_placed lines line index page :
  drawLine config customFont width height lines line index page
  = Normal (page ++ [placed config customFont width height lines index line]).
Proof.
  unfold drawLine, placed, widthOr0, drawText.
  destruct (total line) as [w Hw]. rewrite Hw. reflexivity.
Qed.

Lemma forEachFrom_placed lines todo index page :
  forEachFrom (drawLine config customFont width height lines) todo index page
  = Normal (page ++ placedFrom config customFont width height lines index todo).
Proof.
  revert index page; induction todo as [| line todo IH]; intros index page.
  - simpl. now rewrite app_nil_r.
  - simpl. rewrite drawLine_placed. simpl. rewrite IH.
    now rewrite <- app_assoc.
Qed.

Lemma drawLines_placed lines :
  drawLines config customFont width height lines []
  = Normal (placedFrom config customFont width height lines 0 lines).
Proof. unfold drawLines, forEach. now rewrite forEachFrom_placed. Qed.

Lemma placedFrom_text lines todo index :
  map DrawText.text
      (placedFrom config customFont width height lines index todo)
  = todo.
Proof.
  revert index; induction todo as [| line todo IH]; intro index; simpl;
    [reflexivity | now rewrite IH].
Qed.

Lemma placedFrom_nth lines todo index k :
  nth_error (placedFrom config customFont width height lines index todo) k
  = option_map (placed config customFont width height lines (index + k))
               (nth_error todo k).
Proof.
  revert index k; induction todo as [| line todo IH]; intros index [| k];
    simpl; try reflexivity.
  - now rewrite Nat.add_0_r.
  - rewrite IH. now rewrite Nat.add_succ_comm.
Qed.

Lemma placedFrom_In lines todo index run :
  In run (placedFrom config customFont width height lines index todo) ->
  exists k line, run = placed config customFont width height lines k line.
Proof.
  revert index; induction todo as [| line todo IH]; intros index H;
    simpl in H; [contradiction |].
  destruct H as [<- | H]; [now exists index, line | eauto].
Qed.
End Placement.

Lemma pureFont_total (w : jsString -> Q -> Q) (size : Q) :
  fontTotal (pureFont w) size.
Proof. intro s. now exists (w s size). Qed.

(** ** The line breaker: properties *)

(** C1. With a metrics provider that returns a width for every string,
    [breakTextIntoLines] returns lines whose concatenation, in output
    order, is the input text itself; this holds for every text, the empty
    one included, and for every font size and width limit. *)
Theorem breakTextIntoLines_concat (font : Font) (fontSize maxWidth : Q)
        (text : jsString) :
  fontTotal font fontSize ->
  exists lines,
    breakTextIntoLines font fontSize maxWidth text = Normal lines
    /\ concat lines = text.
Proof.
  intro total. eexists. split.
  - apply breakTextIntoLines_linesFrom. exact total.
  - apply linesFrom_concat.
Qed.

Lemma breakTextIntoLines_concat_witness :
  exists lines,
    breakTextIntoLines (monospaced 1000) 120 300 [23567; 26126; 21516]%N
    = Normal lines
    /\ concat lines = [23567; 26126; 21516]%N.
Proof.
  apply (@breakTextIntoLines_concat (monospaced 1000) 120 300
           [23567; 26126; 21516]%N).
  apply pureFont_total.
Defined.

(** C2. For a non-empty text, [breakTextIntoLines] returns at least one
    line and no returned line is the empty string. *)
Theorem breakTextIntoLines_nonempty (font : Font) (fontSize maxWidth : Q)
        (text : jsString) :
  fontTotal font fontSize ->
  text <> [] ->
  exists lines,
    breakTextIntoLines font fontSize maxWidth text = Normal lines
    /\ (1 <= length lines)%nat
    /\ Forall (fun line => line <> []) lines.
Proof.
  intros total Htext. eexists. split; [| split].
  - apply breakTextIntoLines_linesFrom. exact total.
  - pose proof (@linesFrom_nonempty (widthOr0 font fontSize) maxWidth text []
                  Htext) as H.
    destruct (linesFrom _ _ _ _); [congruence | simpl; lia].
  - apply linesFrom_nonempty_lines.
Qed.

Lemma breakTextIntoLines_nonempty_witness :
  exists lines,
    breakTextIntoLines (monospaced 1000) 120 300 [23567; 26126; 21516]%N
    = Normal lines
    /\ (1 <= length lines)%nat
    /\ Forall (fun line => line <> []) lines.
Proof.
  apply (@breakTextIntoLines_nonempty (monospaced 1000) 120 300
           [23567; 26126; 21516]%N).
  - apply pureFont_total.
  - discriminate.
Defined.

(** C7. The comparison of line 53 is strict: when the measured width of
    the tentative line equals [maxWidth], the loop body keeps the
    character on the current line and commits nothing. *)
Theorem loopBody_accepts_equal_width (font : Font) (fontSize maxWidth : Q)
        (char : codeUnit) (st : LoopState.t) (testWidth : Q) :
  widthOfTextAtSize font (LoopState.currentLine st ++ [char]) fontSize
  = Normal testWidth ->
  testWidth == maxWidth ->
  loopBody font fontSize maxWidth char st
  = Normal (LoopState.mk (LoopState.lines st)
                         (LoopState.currentLine st ++ [char])).
Proof.
  intros Hw Heq. unfold loopBody. rewrite Hw. simpl.
  assert (H : Qgtb testWidth maxWidth = false).
  { apply Qgtb_false. rewrite Heq. apply Qle_refl. }
  rewrite H. reflexivity.
Qed.

Lemma loopBody_accepts_equal_width_witness :
  loopBody (monospaced 1000) 120 240 26126%N (LoopState.mk [] [23567%N])
  = Normal (LoopState.mk [] [23567; 26126]%N).
Proof.
  apply (@loopBody_accepts_equal_width (monospaced 1000) 120 240 26126%N
           (LoopState.mk [] [23567%N]) (2 * 1000 * 120 / 1000)).
  - reflexivity.
  - reflexivity.
Defined.

Lemma monospaced_length_le (advance size : Q) (s t : jsString) :
  0 <= advance -> 0 <= size -> (length s <= length t)%nat ->
  widthOr0 (monospaced advance) size s <= widthOr0 (monospaced advance) size t.
Proof.
  intros Ha Hs Hlen.
  change (ofNat (length s) * advance * size / 1000
          <= ofNat (length t) * advance * size / 1000).
  unfold Qdiv.
  repeat (apply Qmult_le_compat_r; [| assumption || discriminate]).
  unfold ofNat. rewrite <- Zle_Qle. apply Nat2Z.inj_le. exact Hlen.
Qed.

(** A code unit that is not a surrogate is a character of its own,
    wherever it stands. *)
Lemma codePoints_around (wide : codeUnit) (post : jsString) :
  isSurrogate wide = false ->
  forall n pre, (length pre <= n)%nat ->
    codePoints (pre ++ wide :: post)
    = codePoints pre ++ [wide] :: codePoints post.
Proof.
  intro Hwide. unfold isSurrogate in Hwide.
  apply orb_false_iff in Hwide as [Hhigh Hlow].
  assert (Hhead : codePoints (wide :: post) = [wide] :: codePoints post).
  { simpl. destruct post; [reflexivity |]. now rewrite Hhigh. }
  induction n as [| n IH]; intros pre Hlen.
  - destruct pre; [exact Hhead | simpl in Hlen; lia].
  - destruct pre as [| c [| d pre]]; [exact Hhead | |].
    + change (codePoints ([c] ++ wide :: post))
        with (if isHighSurrogate c && isLowSurrogate wide
              then [c; wide] :: codePoints post
              else [c] :: codePoints (wide :: post)).
      rewrite Hlow, andb_false_r, Hhead. reflexivity.
    + change (codePoints ((c :: d :: pre) ++ wide :: post))
        with (if isHighSurrogate c && isLowSurrogate d
              then [c; d] :: codePoints (pre ++ wide :: post)
              else [c] :: codePoints ((d :: pre) ++ wide :: post)).
      change (codePoints (c :: d :: pre))
        with (if isHighSurrogate c && isLowSurrogate d
              then [c; d] :: codePoints pre
              else [c] :: codePoints (d :: pre)).
      simpl in Hlen.
      destruct (isHighSurrogate c && isLowSurrogate d).
      * rewrite (IH pre) by lia. reflexivity.
      * rewrite (IH (d :: pre)) by (simpl; lia). reflexivity.
Qed.

(** C3, as stated, fails, in two ways.

    First, [firstCharWidth] never shrinks when a character is appended,
    and the code unit 87 alone measures 100, above the limit 50; yet for
    the text [97; 87] the tentative line [97; 87] measures 10, so 87 is
    accepted after 97 and no returned line holds 87 alone.

    Second, a character of two code units is split. With the monospaced
    font, whose width shrinks neither by appending nor by prepending, the
    text [55357; 56832] is the one character U+1F600; it measures 240,
    above the limit 100, and its two code units are returned on two
    lines. *)
Lemma wide_character_not_alone :
  ((forall s c size, firstCharWidth s size <= firstCharWidth (s ++ [c]) size)
   /\ 50 < firstCharWidth [87%N] 120
   /\ breakTextIntoLines (pureFont firstCharWidth) 120 50 [97; 87]%N
      = Normal [[97; 87]%N]
   /\ ~ In [87%N] [[97; 87]%N])
  /\
  ((forall s t, (length s <= length t)%nat ->
                widthOr0 (monospaced 1000) 120 s
                <= widthOr0 (monospaced 1000) 120 t)
   /\ codePoints [55357; 56832]%N = [[55357; 56832]%N]
   /\ 100 < widthOr0 (monospaced 1000) 120 [55357; 56832]%N
   /\ breakTextIntoLines (monospaced 1000) 120 100 [55357; 56832]%N
      = Normal [[55357]; [56832]]%N
   /\ ~ In [55357; 56832]%N [[55357]; [56832]]%N
   /\ flat_map codePoints [[55357]; [56832]]%N
      <> codePoints [55357; 56832]%N).
Proof.
  split.
  - split; [| split; [| split]].
    + intros [| c0 s] c size; simpl.
      * destruct (c =? 87)%N; discriminate.
      * apply Qle_refl.
    + reflexivity.
    + reflexivity.
    + intros [H | []]. discriminate.
  - split; [| split; [| split; [| split; [| split]]]].
    + intros s t Hlen. apply monospaced_length_le; try discriminate.
      exact Hlen.
    + reflexivity.
    + reflexivity.
    + reflexivity.
    + intros [H | [H | []]]; discriminate.
    + discriminate.
Qed.

(** C3, amended. Let the metrics provider return a width for every string,
    and let that width never shrink when a character is appended to a
    string nor when one is put in front of a non-empty string. Then a
    character that is a single code unit (not a surrogate, so a character
    of its own in the text) and whose own width exceeds [maxWidth] is
    returned alone on its own line, whole, without any error: the result
    is the lines of the text before it, then the line holding that
    character only, then the lines of the text after it. *)
Theorem wide_character_alone (font : Font) (fontSize maxWidth : Q)
        (pre post : jsString) (wide : codeUnit) (w : Q) :
  fontTotal font fontSize ->
  (forall s c, widthOr0 font fontSize s <= widthOr0 font fontSize (s ++ [c])) ->
  (forall c s, s <> [] ->
               widthOr0 font fontSize s <= widthOr0 font fontSize (c :: s)) ->
  isSurrogate wide = false ->
  widthOfTextAtSize font [wide] fontSize = Normal w ->
  maxWidth < w ->
  codePoints (pre ++ wide :: post)
  = codePoints pre ++ [wide] :: codePoints post
  /\ exists before after,
      breakTextIntoLines font fontSize maxWidth pre = Normal before
      /\ breakTextIntoLines font fontSize maxWidth post = Normal after
      /\ breakTextIntoLines font fontSize maxWidth (pre ++ wide :: post)
         = Normal (before ++ [wide] :: after).
Proof.
  intros total Happ Hpre Hchar Hw Hwide. split.
  - exact (@codePoints_around wide post Hchar (length pre) pre
                              (Nat.le_refl _)).
  - exists (linesFrom (widthOr0 font fontSize) maxWidth [] pre),
           (linesFrom (widthOr0 font fontSize) maxWidth [] post).
    rewrite !breakTextIntoLines_linesFrom by exact total.
    split; [reflexivity | split; [reflexivity |]].
    f_equal. apply linesFrom_wide; try assumption.
    unfold widthOr0. now rewrite Hw.
Qed.

Lemma wide_character_alone_witness :
  codePoints ([23567; 26126]%N ++ 22909%N :: [21516%N])
  = codePoints [23567; 26126]%N ++ [22909%N] :: codePoints [21516%N]
  /\ exists before after,
      breakTextIntoLines (monospaced 1000) 120 100 [23567; 26126]%N
      = Normal before
      /\ breakTextIntoLines (monospaced 1000) 120 100 [21516%N] = Normal after
      /\ breakTextIntoLines (monospaced 1000) 120 100
           ([23567; 26126]%N ++ 22909%N :: [21516%N])
         = Normal (before ++ [22909%N] :: after).
Proof.
  apply (@wide_character_alone (monospaced 1000) 120 100
           [23567; 26126]%N [21516%N] 22909%N (1 * 1000 * 120 / 1000)).
  - apply pureFont_total.
  - intros s c. apply monospaced_length_le; try discriminate.
    rewrite length_app. apply Nat.le_add_r.
  - intros c s _. apply monospaced_length_le; try discriminate.
    apply Nat.le_succ_diag_r.
  - reflexivity.
  - reflexivity.
  - reflexivity.
Defined.

(** C4, as stated, fails. [headGrowthWidth] never shrinks when a
    character is appended. For the text [97; 98; 99; 100; 101] the limit 3
    gives the two lines [97] and [98; 99; 100; 101], while the larger
    limit 4 gives the three lines [97; 98], [99; 100] and [101]. *)
Lemma line_count_not_monotone :
  (forall s c size, headGrowthWidth s size <= headGrowthWidth (s ++ [c]) size)
  /\ 3 <= 4
  /\ breakTextIntoLines (pureFont headGrowthWidth) 120 3
                        [97; 98; 99; 100; 101]%N
     = Normal [[97]; [98; 99; 100; 101]]%N
  /\ breakTextIntoLines (pureFont headGrowthWidth) 120 4
                        [97; 98; 99; 100; 101]%N
     = Normal [[97; 98]; [99; 100]; [101]]%N
  /\ (length [[97]; [98; 99; 100; 101]]%N
      < length [[97; 98]; [99; 100]; [101]]%N)%nat.
Proof.
  split; [| split; [| split; [| split]]].
  - intros [| c0 [| c1 [| c2 s]]] c size; simpl.
    + destruct (N.odd c); discriminate.
    + destruct (N.odd c0); discriminate.
    + destruct (N.odd c0); discriminate.
    + destruct (N.odd c0); apply Qle_refl.
  - discriminate.
  - reflexivity.
  - reflexivity.
  - simpl. lia.
Qed.

(** C4, amended. Let the metrics provider return a width for every string,
    and let that width never shrink when a character is put in front of a
    non-empty string. Then, for a fixed text and font size, a larger
    [maxWidth] never gives more lines. *)
Theorem line_count_monotone (font : Font) (fontSize : Q)
        (maxWidth1 maxWidth2 : Q) (text : jsString) :
  fontTotal font fontSize ->
  (forall c s, s <> [] ->
               widthOr0 font fontSize s <= widthOr0 font fontSize (c :: s)) ->
  maxWidth1 <= maxWidth2 ->
  exists lines1 lines2,
    breakTextIntoLines font fontSize maxWidth1 text = Normal lines1
    /\ breakTextIntoLines font fontSize maxWidth2 text = Normal lines2
    /\ (length lines2 <= length lines1)%nat.
Proof.
  intros total Hpre Hle.
  exists (linesFrom (widthOr0 font fontSize) maxWidth1 [] text),
         (linesFrom (widthOr0 font fontSize) maxWidth2 [] text).
  rewrite !breakTextIntoLines_linesFrom by exact total.
  split; [reflexivity | split; [reflexivity |]].
  exact (proj1 (@linesFrom_count _ Hpre text) maxWidth1 maxWidth2 [] [] Hle).
Qed.

Lemma line_count_monotone_witness :
  exists lines1 lines2,
    breakTextIntoLines (monospaced 1000) 120 240 [23567; 26126; 21516; 22909]%N
    = Normal lines1
    /\ breakTextIntoLines (monospaced 1000) 120 535
         [23567; 26126; 21516; 22909]%N
       = Normal lines2
    /\ (length lines2 <= length lines1)%nat.
Proof.
  apply (@line_count_monotone (monospaced 1000) 120 240 535
           [23567; 26126; 21516; 22909]%N).
  - apply pureFont_total.
  - intros c s _. apply monospaced_length_le; try discriminate.
    apply Nat.le_succ_diag_r.
  - discriminate.
Defined.

(** C9, as stated, fails. With [maxWidth = 0] the text [23567; 26126] is
    broken into one line per character, and with [fontSize = 0] it is
    returned as one line; nothing is thrown in either call. *)
Lemma degenerate_geometry_returns :
  (0 <= 0
   /\ breakTextIntoLines (monospaced 1000) 120 0 [23567; 26126]%N
      = Normal [[23567]; [26126]]%N
   /\ forall e, breakTextIntoLines (monospaced 1000) 120 0 [23567; 26126]%N
                <> Throw e)
  /\
  (0 <= 0
   /\ breakTextIntoLines (monospaced 1000) 0 535 [23567; 26126]%N
      = Normal [[23567; 26126]]%N
   /\ forall e, breakTextIntoLines (monospaced 1000) 0 535 [23567; 26126]%N
                <> Throw e).
Proof.
  repeat split; try reflexivity; try apply Qle_refl; intros e H;
    vm_compute in H; discriminate.
Qed.

(** C9, amended. For [maxWidth <= 0] or [fontSize <= 0], and a metrics
    provider that returns a width for every string, [breakTextIntoLines]
    throws nothing: it returns lines whose concatenation is the text. *)
Theorem degenerate_geometry_no_failure (font : Font) (fontSize maxWidth : Q)
        (text : jsString) :
  fontTotal font fontSize ->
  maxWidth <= 0 \/ fontSize <= 0 ->
  (exists lines,
      breakTextIntoLines font fontSize maxWidth text = Normal lines
      /\ concat lines = text)
  /\ forall e, breakTextIntoLines font fontSize maxWidth text <> Throw e.
Proof.
  intros total _.
  rewrite breakTextIntoLines_linesFrom by exact total. split.
  - eexists. split; [reflexivity | apply linesFrom_concat].
  - discriminate.
Qed.

Lemma degenerate_geometry_no_failure_witness :
  (exists lines,
      breakTextIntoLines (monospaced 1000) 120 (-5) [23567; 26126]%N
      = Normal lines
      /\ concat lines = [23567; 26126]%N)
  /\ forall e, breakTextIntoLines (monospaced 1000) 120 (-5) [23567; 26126]%N
               <> Throw e.
Proof.
  apply (@degenerate_geometry_no_failure (monospaced 1000) 120 (-5)
           [23567; 26126]%N).
  - apply pureFont_total.
  - left. discriminate.
Defined.

Lemma linesFrom_every_overflow (width : jsString -> Q) (maxWidth : Q) :
  maxWidth <= 0 ->
  (forall s, s <> [] -> 0 < width s) ->
  forall rest cur, cur <> [] ->
    linesFrom width maxWidth cur rest = cur :: map (fun c => [c]) rest.
Proof.
  intros Hmax Hpos. induction rest as [| char rest IH]; intros cur Hcur; simpl.
  - apply length_pos_nonempty in Hcur. now rewrite Hcur.
  - assert (H : overflows width maxWidth cur char = true).
    { unfold overflows. apply andb_true_iff. split.
      - apply Qgtb_true. eapply Qle_lt_trans; [exact Hmax |].
        apply Hpos. destruct cur; discriminate.
      - now apply length_pos_nonempty. }
    rewrite H. f_equal. apply IH. discriminate.
Qed.

(** C10. For [maxWidth <= 0], a non-empty text and a metrics provider
    that returns a width for every string, the loop is one pass over the
    characters (the body once for each, in order) and
    [breakTextIntoLines] returns without throwing; if moreover every
    non-empty string has a positive width, every character is a line of
    its own, so there are as many lines as characters. *)
Theorem nonpositive_maxWidth_one_line_per_character
        (font : Font) (fontSize maxWidth : Q) (text : jsString) :
  fontTotal font fontSize ->
  maxWidth <= 0 ->
  text <> [] ->
  forLoop font fontSize maxWidth text 0 (LoopState.mk [] [])
  = Normal (fold_left (step (widthOr0 font fontSize) maxWidth) text
                      (LoopState.mk [] []))
  /\ exists lines,
      breakTextIntoLines font fontSize maxWidth text = Normal lines
      /\ ((forall s, s <> [] -> 0 < widthOr0 font fontSize s) ->
          lines = map (fun c => [c]) text
          /\ length lines = length text).
Proof.
  intros total Hmax Htext. split.
  - now rewrite forLoop_fold.
  - eexists. split; [apply breakTextIntoLines_linesFrom; exact total |].
    intro Hpos.
    assert (H : linesFrom (widthOr0 font fontSize) maxWidth [] text
                = map (fun c => [c]) text).
    { destruct text as [| c rest]; [congruence |]. simpl.
      unfold overflows at 1; simpl. rewrite andb_false_r.
      apply linesFrom_every_overflow; try assumption. discriminate. }
    rewrite H. split; [reflexivity | apply length_map].
Qed.

Lemma monospaced_positive (advance size : Q) (s : jsString) :
  0 < advance -> 0 < size -> s <> [] ->
  0 < widthOr0 (monospaced advance) size s.
Proof.
  intros Ha Hs Hne.
  change (0 < ofNat (length s) * advance * size / 1000).
  unfold Qdiv.
  repeat (apply Qmult_lt_0_compat; [| assumption || reflexivity]).
  destruct s as [| c s]; [congruence |].
  unfold ofNat, Qlt. simpl. lia.
Qed.

Lemma nonpositive_maxWidth_one_line_per_character_witness :
  forLoop (monospaced 1000) 120 0 [23567; 26126; 21516]%N 0 (LoopState.mk [] [])
  = Normal (fold_left (step (widthOr0 (monospaced 1000) 120) 0)
                      [23567; 26126; 21516]%N (LoopState.mk [] []))
  /\ exists lines,
      breakTextIntoLines (monospaced 1000) 120 0 [23567; 26126; 21516]%N
      = Normal lines
      /\ lines = map (fun c => [c]) [23567; 26126; 21516]%N
      /\ length lines = length [23567; 26126; 21516]%N.
Proof.
  destruct (@nonpositive_maxWidth_one_line_per_character
              (monospaced 1000) 120 0 [23567; 26126; 21516]%N)
    as [Hloop (lines & Hlines & Hpositive)].
  - apply pureFont_total.
  - apply Qle_refl.
  - discriminate.
  - split; [exact Hloop |]. exists lines. split; [exact Hlines |].
    apply Hpositive. intros s Hs.
    apply monospaced_positive; [reflexivity | reflexivity | exact Hs].
Defined.

(** ** The positioning: properties *)

Lemma ofNat_succ (n : nat) : ofNat (S n) == ofNat n + 1.
Proof.
  unfold ofNat. rewrite Nat2Z.inj_succ, <- Z.add_1_r, inject_Z_plus.
  reflexivity.
Qed.

(** C8. For every request whose metrics provider returns a width for every
    string, [generatePDF] draws exactly one text run for each line that
    [breakTextIntoLines] returned, in the same order and with that line as
    its text; so as many runs are drawn as lines were returned. *)
Theorem generatePDF_one_run_per_line (config : Config.t) (customFont : Font)
        (width height : Q) (name : jsString) :
  fontTotal customFont (fontSize config) ->
  exists lines page,
    breakTextIntoLines customFont (fontSize config) (maxLineWidth width) name
    = Normal lines
    /\ generatePDF config customFont width height name = Normal page
    /\ map DrawText.text page = lines
    /\ length page = length lines.
Proof.
  intro total.
  exists (linesFrom (widthOr0 customFont (fontSize config))
                    (maxLineWidth width) [] name).
  eexists. unfold generatePDF.
  rewrite breakTextIntoLines_linesFrom by exact total. cbn [bind].
  rewrite (@drawLines_placed config customFont width height total).
  split; [reflexivity | split; [reflexivity |]].
  assert (H : forall lines : list jsString,
             map DrawText.text
                 (placedFrom config customFont width height lines 0 lines)
             = lines) by (intro; apply placedFrom_text).
  split; [apply H |].
  etransitivity; [symmetry; apply (length_map DrawText.text) |].
  now rewrite H.
Qed.

Lemma generatePDF_one_run_per_line_witness :
  exists lines page,
    breakTextIntoLines (monospaced 1000) (fontSize CONFIG) (maxLineWidth 595)
                       [23567; 26126; 21516; 22909; 20320]%N
    = Normal lines
    /\ generatePDF CONFIG (monospaced 1000) 595 842
                   [23567; 26126; 21516; 22909; 20320]%N
       = Normal page
    /\ map DrawText.text page = lines
    /\ length page = length lines.
Proof.
  apply (@generatePDF_one_run_per_line CONFIG (monospaced 1000) 595 842
           [23567; 26126; 21516; 22909; 20320]%N).
  apply pureFont_total.
Defined.

(** Without rounding: for every run that [generatePDF] draws, the
    horizontal origin
    [x = (width - lineWidth) / 2], computed from the measured width of
    that run's own line, satisfies [x + lineWidth / 2 = width / 2]. *)
Theorem generatePDF_centered (config : Config.t) (customFont : Font)
        (width height : Q) (name : jsString) :
  fontTotal customFont (fontSize config) ->
  exists page,
    generatePDF config customFont width height name = Normal page
    /\ forall run lineWidth,
        In run page ->
        widthOfTextAtSize customFont (DrawText.text run) (fontSize config)
        = Normal lineWidth ->
        DrawText.x run == (width - lineWidth) / 2
        /\ DrawText.x run + lineWidth / 2 == width / 2.
Proof.
  intro total. eexists. split.
  - unfold generatePDF.
    rewrite breakTextIntoLines_linesFrom by exact total. cbn [bind].
    apply (@drawLines_placed config customFont width height total).
  - intros run lineWidth Hin Hw.
    apply placedFrom_In in Hin as (k & line & ->).
    unfold placed in *; simpl in *. unfold widthOr0. rewrite Hw.
    split; [reflexivity | field].
Qed.


(** Without rounding: for every non-empty sequence of [n] lines, the
    runs drawn by the
    [forEach] have [y = startY] for the first line and
    [y = startY - (n - 1) * fontSize * CONFIG.lineHeight] for the last
    one; the midpoint of [firstLineY + fontSize] and [lastLineY] is
    [targetCenterY = height - topMargin - fontSize / 2]; and when there is
    one line only, its vertical centre [y + fontSize / 2] is
    [targetCenterY]. *)
Theorem drawLines_vertical_anchor (config : Config.t) (customFont : Font)
        (width height : Q) (lines : list jsString) :
  fontTotal customFont (fontSize config) ->
  lines <> [] ->
  exists page firstRun lastRun,
    drawLines config customFont width height lines [] = Normal page
    /\ nth_error page 0 = Some firstRun
    /\ nth_error page (length lines - 1) = Some lastRun
    /\ DrawText.y firstRun == startY config height lines
    /\ DrawText.y lastRun
       == startY config height lines
          - (ofNat (length lines) - 1)
            * Config.fontSize config * Config.lineHeight config
    /\ ((DrawText.y firstRun + fontSize config) + DrawText.y lastRun) / 2
       == height - Config.topMargin config - fontSize config / 2
    /\ (length lines = 1%nat ->
        DrawText.y firstRun + fontSize config / 2
        == height - Config.topMargin config - fontSize config / 2).
Proof.
  intros total Hlines.
  destruct lines as [| line0 rest]; [congruence |].
  set (lines := line0 :: rest).
  destruct (nth_error lines (length lines - 1)) as [lineN |] eqn:HlineN.
  2:{ apply nth_error_None in HlineN. subst lines. simpl in HlineN. lia. }
  exists (placedFrom config customFont width height lines 0 lines),
         (placed config customFont width height lines 0 line0),
         (placed config customFont width height lines (length lines - 1) lineN).
  split; [apply drawLines_placed; exact total |].
  split; [reflexivity |].
  split; [rewrite placedFrom_nth, HlineN; reflexivity |].
  assert (Hn : ofNat (length lines) == ofNat (length rest) + 1)
    by apply ofNat_succ.
  assert (Hlast : (length lines - 1 = length rest)%nat)
    by (subst lines; simpl; lia).
  rewrite Hlast.
  unfold placed; cbn [DrawText.y].
  unfold startY, totalTextHeight, targetCenterY, lineHeight, fontSize.
  rewrite Hn.
  change (ofNat 0) with 0.
  split; [| split; [| split]].
  - ring.
  - ring.
  - field.
  - intro Hone. subst lines. simpl in Hone.
    assert (Hrest : ofNat (length rest) == 0).
    { destruct rest; [reflexivity | discriminate]. }
    rewrite Hrest. field.
Qed.


(** ** Scenarios *)

(** A failure of the metrics provider is the failure of the call. *)
Lemma breakTextIntoLines_propagates (font : Font) (fontSize maxWidth : Q)
      (char : codeUnit) (rest : jsString) (e : jsError) :
  widthOfTextAtSize font [char] fontSize = Throw e ->
  breakTextIntoLines font fontSize maxWidth (char :: rest) = Throw e.
Proof.
  intro Hthrow. unfold breakTextIntoLines.
  rewrite forLoop_equation_1. simpl.
  unfold loopBody; simpl. rewrite Hthrow. reflexivity.
Qed.

Example metrics_failure_is_thrown (message : String.string) :
  breakTextIntoLines (brokenFont message) 120 535 [23567; 26126]%N
  = Throw (Error message).
Proof. now apply breakTextIntoLines_propagates. Qed.

Example two_characters_one_line :
  breakTextIntoLines (monospaced 1000) 120 535 [23567; 26126]%N
  = Normal [[23567; 26126]%N].
Proof. reflexivity. Qed.

Example ten_characters_of_width_10 :
  breakTextIntoLines (pureFont (fun s _ => ofNat (length s) * 10)) 120 25
                     [1; 2; 3; 4; 5; 6; 7; 8; 9; 10]%N
  = Normal [[1; 2]; [3; 4]; [5; 6]; [7; 8]; [9; 10]]%N.
Proof. reflexivity. Qed.

Example two_lines_168_apart :
  targetCenterY CONFIG 800 == 560
  /\ map DrawText.y
         (placedFrom CONFIG (monospaced 1000) 595 800
                     [[23567; 26126]; [21516; 22909]]%N 0
                     [[23567; 26126]; [21516; 22909]]%N)
     = [startY CONFIG 800 [[23567; 26126]; [21516; 22909]]%N
          - ofNat 0 * lineHeight CONFIG;
        startY CONFIG 800 [[23567; 26126]; [21516; 22909]]%N
          - ofNat 1 * lineHeight CONFIG]
  /\ lineHeight CONFIG == 168
  /\ startY CONFIG 800 [[23567; 26126]; [21516; 22909]]%N == 584.
Proof. repeat split; reflexivity. Qed.

(** * Further properties of the line breaker *)

Section GreedyLines.
Variable width : jsString -> Q.
Variable maxWidth : Q.

(** A line is within the limit, or it is one character. *)
Lemma linesFrom_fit (rest cur : jsString) :
  (length cur <= 1)%nat \/ width cur <= maxWidth ->
  Forall (fun line => length line = 1%nat \/ width line <= maxWidth)
         (linesFrom width maxWidth cur rest).
Proof.
  revert cur; induction rest as [| char rest IH]; intros cur Hcur; simpl.
  - destruct cur as [| c0 cur]; simpl; constructor; [| constructor].
    destruct Hcur as [Hlen | Hw]; [left | right; exact Hw].
    simpl in Hlen |- *. lia.
  - destruct (overflows width maxWidth cur char) eqn:E.
    + unfold overflows in E. apply andb_true_iff in E as [_ Hlen].
      apply Nat.ltb_lt in Hlen.
      constructor; [| apply IH; left; simpl; lia].
      destruct Hcur as [Hone | Hw]; [left; lia | right; exact Hw].
    + apply IH. unfold overflows in E. apply andb_false_iff in E as [E | E].
      * right. now apply Qgtb_false.
      * apply Nat.ltb_ge in E. left. rewrite length_app; simpl. lia.
Qed.

(** The first line produced from a non-empty buffer starts with it. *)
Lemma linesFrom_head (rest cur : jsString) :
  cur <> [] ->
  exists tail more, linesFrom width maxWidth cur rest = (cur ++ tail) :: more.
Proof.
  revert cur; induction rest as [| char rest IH]; intros cur Hcur; simpl.
  - apply length_pos_nonempty in Hcur. rewrite Hcur.
    exists [], []. now rewrite app_nil_r.
  - destruct (overflows width maxWidth cur char).
    + exists [], (linesFrom width maxWidth [char] rest). now rewrite app_nil_r.
    + destruct (IH (cur ++ [char])) as (tail & more & H).
      { destruct cur; discriminate. }
      exists (char :: tail), more. now rewrite H, <- app_assoc.
Qed.

(** Each line is as long as the limit allows: with the first character
    of the next line it would exceed the limit. *)
Lemma linesFrom_maximal (rest cur : jsString) (k : nat) (a b : jsString) :
  nth_error (linesFrom width maxWidth cur rest) k = Some a ->
  nth_error (linesFrom width maxWidth cur rest) (S k) = Some b ->
  exists c b', b = c :: b' /\ maxWidth < width (a ++ [c]).
Proof.
  revert cur k; induction rest as [| char rest IH]; intros cur k Ha Hb.
  - simpl in Ha, Hb. destruct (0 <? length cur)%nat; simpl in Hb;
      [destruct k |]; discriminate.
  - simpl in Ha, Hb. destruct (overflows width maxWidth cur char) eqn:E.
    + destruct k as [| k].
      * simpl in Ha, Hb. injection Ha as <-.
        destruct (linesFrom_head rest (cur := [char])) as (tail & more & H);
          [discriminate |].
        rewrite H in Hb. simpl in Hb. injection Hb as <-.
        exists char, tail. split; [reflexivity |].
        unfold overflows in E. apply andb_true_iff in E as [E _].
        now apply Qgtb_true.
      * simpl in Ha, Hb. exact (IH _ _ Ha Hb).
    + exact (IH _ _ Ha Hb).
Qed.

(** A buffer that was never cut stays uncut with one more character that
    does not overflow. *)
Lemma linesFrom_snoc (s a : jsString) (c : codeUnit) :
  a ++ s <> [] ->
  linesFrom width maxWidth a s = [a ++ s] ->
  overflows width maxWidth (a ++ s) c = false ->
  linesFrom width maxWidth a (s ++ [c]) = [a ++ s ++ [c]].
Proof.
  revert a; induction s as [| d s IH]; intros a Hne Hs Hc; simpl in *.
  - rewrite app_nil_r in Hc. rewrite Hc. simpl.
    destruct a; reflexivity.
  - destruct (overflows width maxWidth a d).
    + exfalso. injection Hs as _ Hnil.
      apply (@linesFrom_nonempty width maxWidth s [d]); [discriminate |].
      exact Hnil.
    + replace (a ++ d :: s ++ [c]) with ((a ++ [d]) ++ s ++ [c])
        by now rewrite <- app_assoc.
      apply IH.
      * destruct a; discriminate.
      * rewrite Hs. now rewrite <- app_assoc.
      * now rewrite <- app_assoc.
Qed.

(** Breaking a returned line again returns that line alone. *)
Lemma linesFrom_stable (rest cur : jsString) :
  cur = [] \/ linesFrom width maxWidth [] cur = [cur] ->
  Forall (fun line => linesFrom width maxWidth [] line = [line])
         (linesFrom width maxWidth cur rest).
Proof.
  assert (Hone : forall c, linesFrom width maxWidth [] [c] = [[c]]).
  { intro c. simpl. unfold overflows; simpl. now rewrite andb_false_r. }
  revert cur; induction rest as [| char rest IH]; intros cur Hcur; simpl.
  - destruct cur as [| c0 cur]; simpl; constructor; [| constructor].
    destruct Hcur as [H | H]; [discriminate | exact H].
  - destruct (overflows width maxWidth cur char) eqn:E.
    + constructor; [| apply IH; right; apply Hone].
      destruct Hcur as [-> | H]; [| exact H].
      unfold overflows in E. simpl in E. now rewrite andb_false_r in E.
    + apply IH. right. destruct Hcur as [-> | H]; [apply Hone |].
      destruct cur as [| c0 cur]; [apply Hone |].
      apply (linesFrom_snoc (c0 :: cur) []); [discriminate | exact H | exact E].
Qed.

Lemma nonempty_lines_length (ls : list jsString) :
  Forall (fun line => line <> []) ls -> (length ls <= length (concat ls))%nat.
Proof.
  induction 1 as [| line ls Hline _ IH]; simpl; [lia |].
  rewrite length_app. destruct line; [congruence | simpl; lia].
Qed.
End GreedyLines.

Section GreedyMonotone.
Variable width : jsString -> Q.
Variable maxWidth : Q.
Hypothesis append_le : forall s c, width s <= width (s ++ [c]).

Lemma append_many_le (t s : jsString) : width s <= width (s ++ t).
Proof.
  revert s; induction t as [| c t IH]; intro s.
  - rewrite app_nil_r. apply Qle_refl.
  - eapply Qle_trans; [apply (append_le s c) |].
    replace (s ++ c :: t) with ((s ++ [c]) ++ t) by now rewrite <- app_assoc.
    apply IH.
Qed.

(** Characters that still fit with the buffer are taken into it. *)
Lemma linesFrom_app_fit (s cur t : jsString) :
  width (cur ++ s) <= maxWidth ->
  linesFrom width maxWidth cur (s ++ t) = linesFrom width maxWidth (cur ++ s) t.
Proof.
  revert cur; induction s as [| c s IH]; intros cur Hfit; simpl.
  - now rewrite app_nil_r.
  - replace (cur ++ c :: s) with ((cur ++ [c]) ++ s) in *
      by now rewrite <- app_assoc.
    assert (E : overflows width maxWidth cur c = false).
    { unfold overflows. apply andb_false_iff. left. apply Qgtb_false.
      eapply Qle_trans; [apply (append_many_le s) | exact Hfit]. }
    rewrite E. now apply IH.
Qed.

Hypothesis prepend_one_le : forall c s, s <> [] -> width s <= width (c :: s).

(** No splitting into non-empty lines that are within the limit, or one
    character long, has fewer lines than the greedy one. *)
Lemma linesFrom_fewest (ls : list jsString) :
  Forall (fun line => line <> []
                      /\ (length line = 1%nat \/ width line <= maxWidth)) ls ->
  (length (linesFrom width maxWidth [] (concat ls)) <= length ls)%nat.
Proof.
  induction 1 as [| line ls [Hne Hfit] _ IH]; simpl; [lia |].
  assert (Habsorb : linesFrom width maxWidth [] (line ++ concat ls)
                    = linesFrom width maxWidth line (concat ls)).
  { destruct Hfit as [Hone | Hw].
    - destruct line as [| c [| c' line]]; try discriminate. simpl.
      unfold overflows; simpl. now rewrite andb_false_r.
    - now apply (linesFrom_app_fit line [] (concat ls)). }
  rewrite Habsorb.
  pose proof (proj2 (@linesFrom_count _ prepend_one_le (concat ls))
                maxWidth line []) as Hone_more.
  rewrite app_nil_r in Hone_more. lia.
Qed.
End GreedyMonotone.

(** X1. Every returned line is within [maxWidth], unless it is a single
    character. *)
Theorem lines_fit_or_single (font : Font) (fontSize maxWidth : Q)
        (text : jsString) :
  fontTotal font fontSize ->
  exists lines,
    breakTextIntoLines font fontSize maxWidth text = Normal lines
    /\ forall line, In line lines ->
         length line = 1%nat
         \/ exists w, widthOfTextAtSize font line fontSize = Normal w
                      /\ w <= maxWidth.
Proof.
  intro total. eexists. split.
  - apply breakTextIntoLines_linesFrom. exact total.
  - intros line Hin.
    pose proof (@linesFrom_fit (widthOr0 font fontSize) maxWidth text []
                  (or_introl (Nat.le_0_l 1))) as H.
    rewrite Forall_forall in H. destruct (H line Hin) as [Hone | Hw].
    + now left.
    + right. unfold widthOr0 in Hw. destruct (total line) as [w Hline].
      rewrite Hline in Hw. now exists w.
Qed.

Lemma lines_fit_or_single_witness :
  exists lines,
    breakTextIntoLines (monospaced 1000) 120 300 [23567; 26126; 21516]%N
    = Normal lines
    /\ forall line, In line lines ->
         length line = 1%nat
         \/ exists w, widthOfTextAtSize (monospaced 1000) line 120 = Normal w
                      /\ w <= 300.
Proof.
  apply (@lines_fit_or_single (monospaced 1000) 120 300
           [23567; 26126; 21516]%N).
  apply pureFont_total.
Defined.

(** X2. Every returned line but the last is full: together with the
    first character of the next line it measures more than [maxWidth]. *)
Theorem lines_are_full (font : Font) (fontSize maxWidth : Q)
        (text : jsString) :
  fontTotal font fontSize ->
  exists lines,
    breakTextIntoLines font fontSize maxWidth text = Normal lines
    /\ forall k a b,
         nth_error lines k = Some a ->
         nth_error lines (S k) = Some b ->
         exists c b' w,
           b = c :: b'
           /\ widthOfTextAtSize font (a ++ [c]) fontSize = Normal w
           /\ maxWidth < w.
Proof.
  intro total. eexists. split.
  - apply breakTextIntoLines_linesFrom. exact total.
  - intros k a b Ha Hb.
    destruct (linesFrom_maximal _ _ _ _ _ Ha Hb) as (c & b' & -> & Hw).
    unfold widthOr0 in Hw. destruct (total (a ++ [c])) as [w Hline].
    rewrite Hline in Hw. now exists c, b', w.
Qed.

Lemma lines_are_full_witness :
  exists lines,
    breakTextIntoLines (monospaced 1000) 120 300 [23567; 26126; 21516]%N
    = Normal lines
    /\ forall k a b,
         nth_error lines k = Some a ->
         nth_error lines (S k) = Some b ->
         exists c b' w,
           b = c :: b'
           /\ widthOfTextAtSize (monospaced 1000) (a ++ [c]) 120 = Normal w
           /\ 300 < w.
Proof.
  apply (@lines_are_full (monospaced 1000) 120 300 [23567; 26126; 21516]%N).
  apply pureFont_total.
Defined.

(** X3. Breaking a returned line again, with the same font, size and
    limit, returns that line alone. *)
Theorem lines_are_stable (font : Font) (fontSize maxWidth : Q)
        (text : jsString) :
  fontTotal font fontSize ->
  exists lines,
    breakTextIntoLines font fontSize maxWidth text = Normal lines
    /\ forall line, In line lines ->
         breakTextIntoLines font fontSize maxWidth line = Normal [line].
Proof.
  intro total. eexists. split.
  - apply breakTextIntoLines_linesFrom. exact total.
  - intros line Hin. rewrite breakTextIntoLines_linesFrom by exact total.
    pose proof (@linesFrom_stable (widthOr0 font fontSize) maxWidth text []
                  (or_introl eq_refl)) as H.
    rewrite Forall_forall in H. now rewrite (H line Hin).
Qed.

Lemma lines_are_stable_witness :
  exists lines,
    breakTextIntoLines (monospaced 1000) 120 300 [23567; 26126; 21516]%N
    = Normal lines
    /\ forall line, In line lines ->
         breakTextIntoLines (monospaced 1000) 120 300 line = Normal [line].
Proof.
  apply (@lines_are_stable (monospaced 1000) 120 300 [23567; 26126; 21516]%N).
  apply pureFont_total.
Defined.

(** X4. When appending a character never shrinks the measured width, a
    non-empty text whose own width is within [maxWidth] is returned as
    one line, the text itself. *)
Theorem text_within_limit_is_one_line (font : Font) (fontSize maxWidth : Q)
        (text : jsString) (w : Q) :
  fontTotal font fontSize ->
  (forall s c, widthOr0 font fontSize s <= widthOr0 font fontSize (s ++ [c])) ->
  text <> [] ->
  widthOfTextAtSize font text fontSize = Normal w ->
  w <= maxWidth ->
  breakTextIntoLines font fontSize maxWidth text = Normal [text].
Proof.
  intros total Happ Htext Hw Hfit.
  rewrite breakTextIntoLines_linesFrom by exact total. f_equal.
  rewrite <- (app_nil_r text) at 1.
  rewrite (@linesFrom_app_fit (widthOr0 font fontSize) maxWidth Happ)
    by (unfold widthOr0; simpl; now rewrite Hw).
  simpl. apply length_pos_nonempty in Htext. now rewrite Htext.
Qed.

Lemma text_within_limit_is_one_line_witness :
  breakTextIntoLines (monospaced 1000) 120 535 [23567; 26126; 21516]%N
  = Normal [[23567; 26126; 21516]%N].
Proof.
  apply (@text_within_limit_is_one_line (monospaced 1000) 120 535
           [23567; 26126; 21516]%N (3 * 1000 * 120 / 1000)).
  - apply pureFont_total.
  - intros s c. apply monospaced_length_le; try discriminate.
    rewrite length_app. apply Nat.le_add_r.
  - discriminate.
  - reflexivity.
  - discriminate.
Defined.

(** X5. There are never more lines than characters in the text. *)
Theorem line_count_at_most_length (font : Font) (fontSize maxWidth : Q)
        (text : jsString) :
  fontTotal font fontSize ->
  exists lines,
    breakTextIntoLines font fontSize maxWidth text = Normal lines
    /\ (length lines <= length text)%nat.
Proof.
  intro total. eexists. split.
  - apply breakTextIntoLines_linesFrom. exact total.
  - pose proof (nonempty_lines_length
                  (linesFrom_nonempty_lines (widthOr0 font fontSize)
                                            maxWidth text [])) as H.
    now rewrite linesFrom_concat in H.
Qed.

Lemma line_count_at_most_length_witness :
  exists lines,
    breakTextIntoLines (monospaced 1000) 120 0 [23567; 26126; 21516]%N
    = Normal lines
    /\ (length lines <= length [23567; 26126; 21516]%N)%nat.
Proof.
  apply (@line_count_at_most_length (monospaced 1000) 120 0
           [23567; 26126; 21516]%N).
  apply pureFont_total.
Defined.

(** X6. When the measured width never shrinks by appending a character
    nor by putting one in front of a non-empty string, the greedy result
    has the fewest lines: no splitting of the text into non-empty lines
    that are within [maxWidth], or one character long, has fewer. *)
Theorem greedy_has_fewest_lines (font : Font) (fontSize maxWidth : Q)
        (text : jsString) (split : list jsString) :
  fontTotal font fontSize ->
  (forall s c, widthOr0 font fontSize s <= widthOr0 font fontSize (s ++ [c])) ->
  (forall c s, s <> [] ->
               widthOr0 font fontSize s <= widthOr0 font fontSize (c :: s)) ->
  concat split = text ->
  Forall (fun line =>
            line <> []
            /\ (length line = 1%nat
                \/ exists w, widthOfTextAtSize font line fontSize = Normal w
                             /\ w <= maxWidth)) split ->
  exists lines,
    breakTextIntoLines font fontSize maxWidth text = Normal lines
    /\ (length lines <= length split)%nat.
Proof.
  intros total Happ Hpre <- Hsplit. eexists. split.
  - apply breakTextIntoLines_linesFrom. exact total.
  - apply (@linesFrom_fewest (widthOr0 font fontSize) maxWidth Happ Hpre).
    eapply Forall_impl; [| exact Hsplit].
    intros line [Hne [Hone | (w & Hw & Hfit)]]; split; auto.
    right. unfold widthOr0. now rewrite Hw.
Qed.

Lemma greedy_has_fewest_lines_witness :
  exists lines,
    breakTextIntoLines (monospaced 1000) 120 300 [23567; 26126; 21516]%N
    = Normal lines
    /\ (length lines <= length [[23567]; [26126]; [21516]]%N)%nat.
Proof.
  apply (@greedy_has_fewest_lines (monospaced 1000) 120 300
           [23567; 26126; 21516]%N [[23567]; [26126]; [21516]]%N).
  - apply pureFont_total.
  - intros s c. apply monospaced_length_le; try discriminate.
    rewrite length_app. apply Nat.le_add_r.
  - intros c s _. apply monospaced_length_le; try discriminate.
    apply Nat.le_succ_diag_r.
  - reflexivity.
  - repeat constructor; discriminate.
Defined.

(** ** A provider that may throw *)

Lemma firstn_succ_nth_error {A : Type} (l : list A) (i : nat) (a : A) :
  nth_error l i = Some a -> firstn (S i) l = firstn i l ++ [a].
Proof.
  revert i; induction l as [| b l IH]; intros [| i] H; simpl in *;
    try discriminate.
  - now inversion H.
  - f_equal. now apply IH.
Qed.

(** Whatever the provider does, the loop entered at index [i] with a
    buffer that ends the text read so far either runs as the fold of
    [step], or stops with an error that the provider threw for a
    non-empty part of the text. *)
Lemma forLoop_outcome (font : Font) (fontSize maxWidth : Q) (text : jsString)
      (i : nat) (st : LoopState.t) :
  (exists before, firstn i text = before ++ LoopState.currentLine st) ->
  forLoop font fontSize maxWidth text i st
  = Normal (fold_left (step (widthOr0 font fontSize) maxWidth)
                      (skipn i text) st)
  \/ exists e before part after,
      forLoop font fontSize maxWidth text i st = Throw e
      /\ part <> []
      /\ text = before ++ part ++ after
      /\ widthOfTextAtSize font part fontSize = Throw e.
Proof.
  funelim (forLoop font fontSize maxWidth text i st); intros [before Hcur].
  - match goal with e : nth_error _ _ = Some _ |- _ =>
      pose proof (skipn_nth_error _ _ e) as Hskip end.
    match goal with e : nth_error _ _ = Some _ |- _ =>
      pose proof (firstn_succ_nth_error _ _ e) as Hfirst end.
    rewrite Hcur, <- app_assoc in Hfirst.
    assert (Htext : text = (before ++ LoopState.currentLine st ++ [char])
                           ++ skipn (S i) text).
    { rewrite <- Hfirst. symmetry. apply firstn_skipn. }
    unfold loopBody.
    destruct (widthOfTextAtSize font (LoopState.currentLine st ++ [char])
                                fontSize) as [w | err] eqn:Hw.
    + cbn [bind].
      match goal with
        IH : forall st', _ -> forLoop _ _ _ _ _ st' = _ \/ _ |- _ =>
          rename IH into IHloop end.
      rewrite Hskip. cbn [fold_left].
      assert (Hstep : step (widthOr0 font fontSize) maxWidth st char
                      = if Qgtb w maxWidth
                           && (0 <? length (LoopState.currentLine st))%nat
                        then LoopState.mk (LoopState.lines st
                                           ++ [LoopState.currentLine st])
                                          [char]
                        else LoopState.mk (LoopState.lines st)
                                          (LoopState.currentLine st ++ [char])).
      { unfold step, overflows, widthOr0. now rewrite Hw. }
      rewrite Hstep.
      destruct (Qgtb w maxWidth && _); cbn [bind]; apply IHloop;
        cbn [LoopState.currentLine].
      * exists (before ++ LoopState.currentLine st).
        now rewrite Hfirst, <- app_assoc.
      * exists before. exact Hfirst.
    + right. exists err, before, (LoopState.currentLine st ++ [char]),
                     (skipn (S i) text).
      split; [reflexivity |].
      split; [destruct (LoopState.currentLine st); discriminate |].
      split; [| exact Hw].
      rewrite Htext at 1. now rewrite <- !app_assoc.
  - left.
    match goal with e : nth_error _ _ = None |- _ =>
      pose proof (proj1 (nth_error_None _ _) e) as Hexit end.
    rewrite skipn_all2 by exact Hexit. reflexivity.
Qed.

Lemma breakTextIntoLines_outcome (font : Font) (fontSize maxWidth : Q)
      (text : jsString) :
  (exists lines,
      breakTextIntoLines font fontSize maxWidth text = Normal lines
      /\ concat lines = text
      /\ Forall (fun line => line <> []) lines)
  \/ exists e, breakTextIntoLines font fontSize maxWidth text = Throw e.
Proof.
  unfold breakTextIntoLines.
  destruct (@forLoop_outcome font fontSize maxWidth text 0
                             (LoopState.mk [] []))
    as [Hrun | (e & before & part & after & Hthrow & Hrest)].
  - now exists [].
  - left. rewrite Hrun. cbn [bind skipn].
    exists (finish (fold_left (step (widthOr0 font fontSize) maxWidth)
                              text (LoopState.mk [] []))).
    split; [unfold finish; destruct (0 <? _)%nat; reflexivity |].
    rewrite finish_fold_step. simpl.
    split; [apply linesFrom_concat | apply linesFrom_nonempty_lines].
  - right. exists e. now rewrite Hthrow.
Qed.

(** X7. For every font, throwing or not, [breakTextIntoLines] either
    returns non-empty lines whose concatenation is the text, or throws
    the very error that the font threw when asked for the width of a
    non-empty part of the text; the empty text never throws. *)
Theorem breakTextIntoLines_returns_or_font_threw
        (font : Font) (fontSize maxWidth : Q) (text : jsString) :
  ((exists lines,
       breakTextIntoLines font fontSize maxWidth text = Normal lines
       /\ concat lines = text
       /\ Forall (fun line => line <> []) lines)
   \/
   (exists e before part after,
       breakTextIntoLines font fontSize maxWidth text = Throw e
       /\ part <> []
       /\ text = before ++ part ++ after
       /\ widthOfTextAtSize font part fontSize = Throw e))
  /\ breakTextIntoLines font fontSize maxWidth [] = Normal [].
Proof.
  split.
  - unfold breakTextIntoLines.
    destruct (@forLoop_outcome font fontSize maxWidth text 0
                               (LoopState.mk [] []))
      as [Hrun | (e & before & part & after & Hthrow & Hrest)].
    + now exists [].
    + left. rewrite Hrun. cbn [bind skipn].
      exists (finish (fold_left (step (widthOr0 font fontSize) maxWidth)
                                text (LoopState.mk [] []))).
      split; [unfold finish; destruct (0 <? _)%nat; reflexivity |].
      rewrite finish_fold_step. simpl.
      split; [apply linesFrom_concat | apply linesFrom_nonempty_lines].
    + right. exists e, before, part, after. rewrite Hthrow. now split.
  - unfold breakTextIntoLines. rewrite forLoop_equation_1. reflexivity.
Qed.

(** * Further properties of the positioning *)

Lemma placedFrom_In_line (config : Config.t) (customFont : Font)
      (width height : Q) (lines todo : list jsString) (index : nat)
      (run : DrawText.t) :
  In run (placedFrom config customFont width height lines index todo) ->
  exists k line,
    In line todo /\ run = placed config customFont width height lines k line.
Proof.
  revert index; induction todo as [| line todo IH]; intros index H;
    simpl in H; [contradiction |].
  destruct H as [<- | H].
  - exists index, line. split; [now left | reflexivity].
  - destruct (IH _ H) as (k & line' & Hin & ->).
    exists k, line'. split; [now right | reflexivity].
Qed.

(** Without rounding: consecutive runs are exactly one line height
    apart, the later
    one lower on the page: [y] decreases by
    [fontSize * CONFIG.lineHeight] from each line to the next. *)
Theorem generatePDF_line_spacing (config : Config.t) (customFont : Font)
        (width height : Q) (name : jsString) :
  fontTotal customFont (fontSize config) ->
  exists page,
    generatePDF config customFont width height name = Normal page
    /\ forall k upper lower,
         nth_error page k = Some upper ->
         nth_error page (S k) = Some lower ->
         DrawText.y upper - DrawText.y lower
         == Config.fontSize config * Config.lineHeight config.
Proof.
  intro total. eexists. split.
  - unfold generatePDF.
    rewrite breakTextIntoLines_linesFrom by exact total. cbn [bind].
    apply (@drawLines_placed config customFont width height total).
  - intros k upper lower Hupper Hlower.
    rewrite placedFrom_nth in Hupper, Hlower.
    destruct (nth_error _ k) as [a |]; [| discriminate].
    destruct (nth_error _ (S k)) as [b |]; [| discriminate].
    simpl in Hupper, Hlower.
    injection Hupper as <-. injection Hlower as <-.
    unfold placed; cbn [DrawText.y]. rewrite ofNat_succ.
    unfold lineHeight, fontSize. ring.
Qed.


(** X9. Every run of two or more characters lies between the side
    margins: its left end [x] is at least [marginX] and its right end
    [x + lineWidth] is at most [width - marginX]. Only a run of one
    character can reach into the margins or past the page. *)
Theorem generatePDF_within_margins (config : Config.t) (customFont : Font)
        (width height : Q) (name : jsString) :
  fontTotal customFont (fontSize config) ->
  exists page,
    generatePDF config customFont width height name = Normal page
    /\ forall run lineWidth,
         In run page ->
         (2 <= length (DrawText.text run))%nat ->
         widthOfTextAtSize customFont (DrawText.text run) (fontSize config)
         = Normal lineWidth ->
         marginX <= DrawText.x run
         /\ DrawText.x run + lineWidth <= width - marginX.
Proof.
  intro total. eexists. split.
  - unfold generatePDF.
    rewrite breakTextIntoLines_linesFrom by exact total. cbn [bind].
    apply (@drawLines_placed config customFont width height total).
  - intros run lineWidth Hin Hlen Hw.
    apply placedFrom_In_line in Hin as (k & line & Hline & ->).
    cbn [placed DrawText.text DrawText.x] in *.
    pose proof (@linesFrom_fit (widthOr0 customFont (fontSize config))
                  (maxLineWidth width) name []
                  (or_introl (Nat.le_0_l 1))) as Hfit.
    rewrite Forall_forall in Hfit.
    destruct (Hfit line Hline) as [Hone | Hfits]; [lia |].
    unfold widthOr0 in *. rewrite Hw in *.
    unfold maxLineWidth, marginX in *.
    split.
    + apply Qle_shift_div_l; [reflexivity | lra].
    + apply (Qplus_le_l _ _ (- lineWidth)).
      setoid_replace ((width - lineWidth) / 2 + lineWidth + - lineWidth)
        with ((width - lineWidth) / 2) by ring.
      apply Qle_shift_div_r; [reflexivity | lra].
Qed.

Lemma generatePDF_within_margins_witness :
  exists page,
    generatePDF CONFIG (monospaced 1000) 595 842
                [23567; 26126; 21516; 22909; 20320]%N
    = Normal page
    /\ forall run lineWidth,
         In run page ->
         (2 <= length (DrawText.text run))%nat ->
         widthOfTextAtSize (monospaced 1000) (DrawText.text run)
                           (fontSize CONFIG)
         = Normal lineWidth ->
         marginX <= DrawText.x run
         /\ DrawText.x run + lineWidth <= 595 - marginX.
Proof.
  apply (@generatePDF_within_margins CONFIG (monospaced 1000) 595 842
           [23567; 26126; 21516; 22909; 20320]%N).
  apply pureFont_total.
Defined.

(** * Properties of the page script *)

Lemma trimStart_blank (s : jsString) :
  trimStart s = [] <-> forallb isWhiteSpace s = true.
Proof.
  induction s as [| c s IH]; simpl; [tauto |].
  destruct (isWhiteSpace c); simpl; [exact IH |].
  split; discriminate.
Qed.

Lemma trimStart_head (s : jsString) (c : codeUnit) (t : jsString) :
  trimStart s = c :: t -> isWhiteSpace c = false.
Proof.
  induction s as [| d s IH]; simpl; [discriminate |].
  destruct (isWhiteSpace d) eqn:E; [exact IH |].
  intro H. injection H as -> _. exact E.
Qed.

(** [trim] returns the empty string exactly for a string of white space. *)
Lemma trim_blank (s : jsString) :
  trim s = [] <-> forallb isWhiteSpace s = true.
Proof.
  unfold trim, trimEnd. split; intro H.
  - apply trimStart_blank.
    apply (f_equal (@rev codeUnit)) in H. rewrite rev_involutive in H.
    simpl in H. apply trimStart_blank in H.
    destruct (trimStart s) as [| c t] eqn:E; [reflexivity |].
    apply trimStart_head in E.
    rewrite forallb_forall in H.
    rewrite (H c) in E; [discriminate |].
    apply in_rev. rewrite rev_involutive. now left.
  - apply trimStart_blank in H. now rewrite H.
Qed.

Ltac run_script H :=
  repeat match type of H with
         | context [match ?x with _ => _ end] =>
             let E := fresh "E" in destruct x eqn:E; simpl in H
         end.

(** Lines 132-139 leave the page elements alone. With a filled cache
    nothing is fetched and nothing changes; with an empty one the font is
    fetched once, and the cache is filled exactly when bytes came back,
    with those bytes. *)
Lemma loadFont_outcome (env : App.Env) (st : App.t) :
  let '(r, st') := App.loadFont env st in
  App.ui st' = App.ui st
  /\ ((exists fontBytes,
          App.cachedFontBytes st = Some fontBytes
          /\ r = Normal fontBytes /\ st' = st)
      \/ (App.cachedFontBytes st = None
          /\ App.events st' = App.events st ++ [Fetch App.fontPath]
          /\ App.cachedFontBytes st'
             = match r with Normal fontBytes => Some fontBytes
                          | Throw _ => None end
          /\ forall fontBytes,
               r = Normal fontBytes ->
               exists fontResponse,
                 App.fetch env App.fontPath = Normal fontResponse
                 /\ App.ok fontResponse = true
                 /\ App.arrayBuffer fontResponse = Normal fontBytes)).
Proof.
  destruct (App.loadFont env st) as [r st'] eqn:H.
  unfold App.loadFont in H.
  destruct (App.cachedFontBytes st) as [fontBytes |] eqn:Hcache.
  - inversion H; subst. split; [reflexivity |]. left. now exists fontBytes.
  - unfold App.andThen, App.fetchFrom, App.record, App.await, App.throw in H.
    simpl in H. run_script H.
    all: inversion H; subst; clear H; simpl.
    all: split; [reflexivity |]; right; rewrite ?Hcache.
    all: repeat (split; [reflexivity |]).
    all: intros fontBytes Hr; try discriminate.
    injection Hr as ->.
    match goal with
    | Hf : App.fetch _ App.fontPath = Normal ?resp |- _ => exists resp
    end.
    repeat split; try assumption.
    match goal with Hn : negb _ = false |- _ =>
      now apply negb_false_iff in Hn end.
Qed.

(** One run of [generatePDF], by cases on every answer it awaits. *)
Lemma generatePDF_run (env : App.Env) (name : jsString)
        (st : App.t) :
  let '(r, st') := App.generatePDF env name st in
  exists calls,
    App.events st' = App.events st ++ Fetch App.pdfPath :: calls
    /\ match r with
       | Normal _ =>
           exists pdfResponse templateBytes fontBytes pdfDoc customFont
                  width height otherPages page pdfBytes,
             App.fetch env App.pdfPath = Normal pdfResponse
             /\ App.ok pdfResponse = true
             /\ App.arrayBuffer pdfResponse = Normal templateBytes
             /\ App.cachedFontBytes st' = Some fontBytes
             /\ ((App.cachedFontBytes st = Some fontBytes
                  /\ calls = [Download (App.filenameFor name) pdfBytes])
                 \/ (App.cachedFontBytes st = None
                     /\ calls = [Fetch App.fontPath;
                                 Download (App.filenameFor name) pdfBytes]
                     /\ exists fontResponse,
                         App.fetch env App.fontPath = Normal fontResponse
                         /\ App.ok fontResponse = true
                         /\ App.arrayBuffer fontResponse = Normal fontBytes))
             /\ App.load env templateBytes = Normal pdfDoc
             /\ App.embedFont env pdfDoc fontBytes = Normal customFont
             /\ App.pageSizes pdfDoc = (width, height) :: otherPages
             /\ generatePDF CONFIG customFont width height name = Normal page
             /\ App.save env pdfDoc page = Normal pdfBytes
             /\ App.ui st'
                = App.showSuccess (App.generatedText (App.filenameFor name))
                                  (App.ui st)
       | Throw _ =>
           (calls = [] \/ calls = [Fetch App.fontPath])
           /\ App.ui st' = App.ui st
       end.
Proof.
  destruct (App.generatePDF env name st) as [r st'] eqn:H.
  unfold App.generatePDF, App.andThen, App.fetchFrom, App.record, App.await,
    App.throw, App.downloadPDF, App.updateUI in H.
  simpl in H.
  run_script H.
  all: try match goal with
         | Hf : App.loadFont ?e ?s = _ |- _ =>
             let Ho := fresh "Ho" in
             pose proof (loadFont_outcome e s) as Ho; rewrite Hf in Ho;
             simpl in Ho;
             destruct Ho as
               [Hui [(fontBytes & Hcache & Hr & ->)
                    | (Hcache & Hev & Hc & Hfetch)]]
         end.
  all: inversion H; subst; clear H; simpl.
  all: rewrite ?Hev, ?Hui; simpl; rewrite <- ?app_assoc; simpl.
  all: try (eexists; split; [reflexivity |]; split; [auto | reflexivity]).
  all: eexists; (split; [reflexivity |]).
  all: match goal with
       | Hok : negb (App.ok ?resp) = false,
         Hab : App.arrayBuffer ?resp = Normal ?tb,
         Hl : App.load _ ?tb = Normal ?doc,
         He : App.embedFont _ ?doc ?fb = Normal ?f,
         Hp : match App.pageSizes ?doc with _ => _ end = Some (?w, ?h),
         Hb : breakTextIntoLines ?f _ _ _ = Normal ?ls,
         Hd : drawLines _ ?f ?w ?h ?ls [] = Normal ?pg,
         Hs : App.save _ ?doc ?pg = Normal ?b |- _ =>
           apply negb_false_iff in Hok;
           destruct (App.pageSizes doc) as [| size others] eqn:Hsizes;
           [discriminate |];
           simpl in Hp; injection Hp as ->;
           exists resp, tb, fb, doc, f, w, h, others, pg, b;
           split; [reflexivity |];
           split; [exact Hok |];
           split; [exact Hab |]
       end.
  - injection Hr as ->.
    split; [exact Hcache |]. split; [left; now split |].
    repeat (split; [assumption || reflexivity |]).
    split; [| split; [assumption | reflexivity]].
    unfold generatePDF. change (fontSize CONFIG) with 120.
    match goal with Hb : breakTextIntoLines _ _ _ _ = _ |- _ =>
      rewrite Hb end. assumption.
  - split; [exact Hc |]. split.
    + right. split; [exact Hcache |]. split; [reflexivity |].
      now apply Hfetch.
    + repeat (split; [assumption || reflexivity |]).
      split; [| split; [assumption | reflexivity]].
      unfold generatePDF. change (fontSize CONFIG) with 120.
      match goal with Hb : breakTextIntoLines _ _ _ _ = _ |- _ =>
        rewrite Hb end. assumption.
Qed.


Lemma pdfPath_is_not_fontPath : Fetch App.pdfPath <> Fetch App.fontPath.
Proof. discriminate. Qed.

(** The font cache over one run of [generatePDF]: a filled cache is kept
    and no font is fetched. *)
Lemma generatePDF_keeps_cache (env : App.Env) (name : jsString) (st : App.t)
      (fontBytes : bytes) :
  App.cachedFontBytes st = Some fontBytes ->
  let st' := snd (App.generatePDF env name st) in
  App.cachedFontBytes st' = Some fontBytes
  /\ exists calls,
      App.events st' = App.events st ++ calls
      /\ ~ In (Fetch App.fontPath) calls.
Proof.
  intro Hfilled.
  destruct (App.generatePDF env name st) as [r st'] eqn:H.
  unfold App.generatePDF, App.andThen, App.fetchFrom, App.record, App.await,
    App.throw, App.downloadPDF, App.updateUI in H.
  simpl in H.
  run_script H.
  all: try match goal with
         | Hf : App.loadFont ?e ?s = _ |- _ =>
             let Ho := fresh "Ho" in
             pose proof (loadFont_outcome e s) as Ho; rewrite Hf in Ho;
             simpl in Ho;
             destruct Ho as
               [Hui [(b & Hcache & Hr & ->) | (Hcache & Hev & Hc & Hfetch)]];
             [| rewrite Hfilled in Hcache; discriminate]
         end.
  all: inversion H; subst; clear H; simpl.
  all: split; [assumption |].
  all: rewrite <- ?app_assoc; simpl.
  all: eexists; split; [reflexivity |].
  all: simpl; intuition discriminate.
Qed.

(** [handleSubmit] for a value that is not blank, in terms of the run of
    [generatePDF] that it awaits. *)
Lemma handleSubmit_run (env : App.Env) (st : App.t) (c : codeUnit)
      (t : jsString) :
  trim (UI.nameInputValue (App.ui st)) = c :: t ->
  App.handleSubmit env st
  = let st0 := App.mk (App.cachedFontBytes st)
                      (App.setDisabled true
                         (App.hideError (App.showLoading true (App.ui st))))
                      (App.events st) in
    let '(r, st1) := App.generatePDF env (c :: t) st0 in
    (Normal tt,
     App.mk (App.cachedFontBytes st1)
            (App.setDisabled false
               (App.showLoading false
                  match r with
                  | Normal _ => App.ui st1
                  | Throw e => App.showError (App.failureText e) (App.ui st1)
                  end))
            (App.events st1)).
Proof.
  intro Hname. unfold App.handleSubmit. rewrite Hname.
  unfold App.tryFinally, App.tryCatch, App.andThen, App.updateUI. simpl.
  destruct (App.generatePDF env (c :: t) _) as [[[] | e] st1]; reflexivity.
Qed.

(** X11. A value that is empty or made of white space only is rejected
    before anything else happens: the error banner asks for a name, and
    nothing is fetched or downloaded; the cache, the loading indicator,
    the form, the button and the success banner stay as they were. *)
Theorem handleSubmit_rejects_blank (env : App.Env) (st : App.t) :
  forallb isWhiteSpace (UI.nameInputValue (App.ui st)) = true ->
  App.handleSubmit env st
  = (Normal tt,
     App.mk (App.cachedFontBytes st)
            (App.showError App.enterNameText (App.ui st))
            (App.events st)).
Proof.
  intro Hblank. apply trim_blank in Hblank.
  unfold App.handleSubmit. now rewrite Hblank.
Qed.

Lemma handleSubmit_rejects_blank_witness :
  App.handleSubmit demoEnv (App.mk None (restingUI [32; 12288; 9]%N) [])
  = (Normal tt,
     App.mk None
            (App.showError App.enterNameText (restingUI [32; 12288; 9]%N))
            []).
Proof.
  apply (@handleSubmit_rejects_blank demoEnv
           (App.mk None (restingUI [32; 12288; 9]%N) [])).
  reflexivity.
Defined.

(** X12. For a value that is not blank, [handleSubmit] awaits one run of
    [generatePDF] on the trimmed value, with the loading indicator shown,
    the banners hidden and the button disabled; it never throws and
    always leaves the page at rest: loading indicator hidden, form shown,
    button enabled. The template was fetched, and exactly one banner is
    shown afterwards. If that run returned, it is the success banner
    with the name of the file made from the trimmed value, and the
    download of that file was the last call made. If that run threw [e],
    it is the error banner with the message of [e], and nothing was
    downloaded. *)
Theorem handleSubmit_outcome (env : App.Env) (st : App.t) :
  trim (UI.nameInputValue (App.ui st)) <> [] ->
  let name := trim (UI.nameInputValue (App.ui st)) in
  let st0 := App.mk (App.cachedFontBytes st)
                    (App.setDisabled true
                       (App.hideError (App.showLoading true (App.ui st))))
                    (App.events st) in
  let '(r, st') := App.handleSubmit env st in
  let '(awaited, st1) := App.generatePDF env name st0 in
  r = Normal tt
  /\ UI.loadingHidden (App.ui st') = true
  /\ UI.formHidden (App.ui st') = false
  /\ UI.generateBtnDisabled (App.ui st') = false
  /\ App.events st' = App.events st1
  /\ App.cachedFontBytes st' = App.cachedFontBytes st1
  /\ exists calls,
      App.events st' = App.events st ++ Fetch App.pdfPath :: calls
      /\ match awaited with
         | Normal _ =>
             (exists before pdfBytes,
                 calls = before ++ [Download (App.filenameFor name) pdfBytes]
                 /\ forall filename pdfBytes',
                      ~ In (Download filename pdfBytes') before)
             /\ UI.successHidden (App.ui st') = false
             /\ UI.successText (App.ui st')
                = App.generatedText (App.filenameFor name)
             /\ UI.errorHidden (App.ui st') = true
         | Throw e =>
             (forall filename pdfBytes,
                 ~ In (Download filename pdfBytes) calls)
             /\ UI.errorHidden (App.ui st') = false
             /\ UI.errorText (App.ui st') = App.failureText e
             /\ UI.successHidden (App.ui st') = true
         end.
Proof.
  intros Hname name st0. subst name st0.
  destruct (trim (UI.nameInputValue (App.ui st))) as [| c t] eqn:Htrim;
    [congruence |].
  rewrite (handleSubmit_run env st Htrim). cbv zeta.
  match goal with |- context [App.generatePDF env (c :: t) ?s] =>
    pose proof (generatePDF_run env (c :: t) s) as Hrun;
    destruct (App.generatePDF env (c :: t) s) as [awaited st1] end.
  destruct Hrun as (calls & Hev & Hout). simpl in Hev.
  repeat (split; [reflexivity |]).
  exists calls. split; [exact Hev |].
  destruct awaited as [[] | e].
  - destruct Hout as (resp & tb & fb & doc & f & w & h & others & pg & b
                      & _ & _ & _ & _ & Hcalls & _ & _ & _ & _ & _ & Hui).
    rewrite Hui. simpl.
    split; [| repeat split].
    destruct Hcalls as [[_ ->] | (_ & -> & _)].
    + exists [], b. split; auto.
    + exists [Fetch App.fontPath], b. split; auto.
      intros filename b' [H | []]. discriminate.
  - destruct Hout as [Hcalls Hui]. rewrite Hui. simpl.
    split; [| repeat split].
    intros filename b Hin.
    destruct Hcalls as [-> | ->]; simpl in Hin; intuition discriminate.
Qed.

Lemma handleSubmit_outcome_witness :
  let env := demoEnv in
  let st := App.mk None (restingUI [32; 23567; 26126; 32]%N) [] in
  let name := trim (UI.nameInputValue (App.ui st)) in
  let st0 := App.mk (App.cachedFontBytes st)
                    (App.setDisabled true
                       (App.hideError (App.showLoading true (App.ui st))))
                    (App.events st) in
  let '(r, st') := App.handleSubmit env st in
  let '(awaited, st1) := App.generatePDF env name st0 in
  r = Normal tt
  /\ UI.loadingHidden (App.ui st') = true
  /\ UI.formHidden (App.ui st') = false
  /\ UI.generateBtnDisabled (App.ui st') = false
  /\ App.events st' = App.events st1
  /\ App.cachedFontBytes st' = App.cachedFontBytes st1
  /\ exists calls,
      App.events st' = App.events st ++ Fetch App.pdfPath :: calls
      /\ match awaited with
         | Normal _ =>
             (exists before pdfBytes,
                 calls = before ++ [Download (App.filenameFor name) pdfBytes]
                 /\ forall filename pdfBytes',
                      ~ In (Download filename pdfBytes') before)
             /\ UI.successHidden (App.ui st') = false
             /\ UI.successText (App.ui st')
                = App.generatedText (App.filenameFor name)
             /\ UI.errorHidden (App.ui st') = true
         | Throw e =>
             (forall filename pdfBytes,
                 ~ In (Download filename pdfBytes) calls)
             /\ UI.errorHidden (App.ui st') = false
             /\ UI.errorText (App.ui st') = App.failureText e
             /\ UI.successHidden (App.ui st') = true
         end.
Proof.
  apply (@handleSubmit_outcome demoEnv
           (App.mk None (restingUI [32; 23567; 26126; 32]%N) [])).
  discriminate.
Defined.

Lemma handleSubmit_keeps_cache (env : App.Env) (st : App.t)
      (fontBytes : bytes) :
  App.cachedFontBytes st = Some fontBytes ->
  let st' := snd (App.handleSubmit env st) in
  App.cachedFontBytes st' = Some fontBytes
  /\ exists calls,
      App.events st' = App.events st ++ calls
      /\ ~ In (Fetch App.fontPath) calls.
Proof.
  intro Hfilled.
  destruct (trim (UI.nameInputValue (App.ui st))) as [| c t] eqn:Htrim.
  - unfold App.handleSubmit. rewrite Htrim. simpl.
    split; [exact Hfilled |]. exists []. now rewrite app_nil_r.
  - rewrite (handleSubmit_run env st Htrim). cbv zeta.
    match goal with |- context [App.generatePDF env (c :: t) ?s] =>
      pose proof (@generatePDF_keeps_cache env (c :: t) s fontBytes Hfilled)
        as Hkeep;
      destruct (App.generatePDF env (c :: t) s) as [r st1] end.
    exact Hkeep.
Qed.

(** X13. Once the font bytes are cached they stay cached, unchanged,
    through every later edit and submission, and the font is never
    fetched again, whatever the network answers. *)
Theorem session_fetches_no_font_once_cached
        (evs : list App.PageEvent) (st : App.t) (fontBytes : bytes) :
  App.cachedFontBytes st = Some fontBytes ->
  App.cachedFontBytes (App.session evs st) = Some fontBytes
  /\ exists calls,
      App.events (App.session evs st) = App.events st ++ calls
      /\ ~ In (Fetch App.fontPath) calls.
Proof.
  revert st; induction evs as [| ev evs IH]; intros st Hfilled.
  - split; [exact Hfilled |]. exists []. now rewrite app_nil_r.
  - change (App.session (ev :: evs) st)
      with (App.session evs (App.dispatch st ev)).
    assert (Hstep : App.cachedFontBytes (App.dispatch st ev) = Some fontBytes
                    /\ exists calls,
                        App.events (App.dispatch st ev) = App.events st ++ calls
                        /\ ~ In (Fetch App.fontPath) calls).
    { destruct ev as [value | env]; simpl.
      - split; [exact Hfilled |]. exists []. now rewrite app_nil_r.
      - now apply handleSubmit_keeps_cache. }
    destruct Hstep as (Hcache & calls1 & Hev1 & Hno1).
    destruct (IH _ Hcache) as (Hfinal & calls2 & Hev2 & Hno2).
    split; [exact Hfinal |].
    exists (calls1 ++ calls2). split.
    + now rewrite Hev2, Hev1, app_assoc.
    + intro Hin. apply in_app_or in Hin. tauto.
Qed.

Lemma session_fetches_no_font_once_cached_witness :
  App.cachedFontBytes
    (App.session [App.Input [23567; 26126]%N; App.Submit demoEnv;
                  App.Input [21516]%N; App.Submit demoEnv]
                 (App.mk (Some []) (restingUI []) []))
  = Some []
  /\ exists calls,
      App.events
        (App.session [App.Input [23567; 26126]%N; App.Submit demoEnv;
                      App.Input [21516]%N; App.Submit demoEnv]
                     (App.mk (Some []) (restingUI []) []))
      = App.events (App.mk (Some []) (restingUI []) []) ++ calls
      /\ ~ In (Fetch App.fontPath) calls.
Proof.
  apply (@session_fetches_no_font_once_cached
           [App.Input [23567; 26126]%N; App.Submit demoEnv;
            App.Input [21516]%N; App.Submit demoEnv]
           (App.mk (Some []) (restingUI []) []) []).
  reflexivity.
Defined.

(** X14. A page at rest (loading indicator hidden, form shown, button
    enabled) is at rest again after every edit and every submission,
    failed or not: no sequence of events leaves the form hidden or the
    button disabled. *)
Theorem session_returns_to_rest (evs : list App.PageEvent) (st : App.t) :
  UI.loadingHidden (App.ui st) = true
  /\ UI.formHidden (App.ui st) = false
  /\ UI.generateBtnDisabled (App.ui st) = false ->
  UI.loadingHidden (App.ui (App.session evs st)) = true
  /\ UI.formHidden (App.ui (App.session evs st)) = false
  /\ UI.generateBtnDisabled (App.ui (App.session evs st)) = false.
Proof.
  revert st; induction evs as [| ev evs IH]; intros st Hrest;
    [exact Hrest |].
  change (App.session (ev :: evs) st)
    with (App.session evs (App.dispatch st ev)).
  apply IH. destruct ev as [value | env]; simpl; [exact Hrest |].
  destruct (trim (UI.nameInputValue (App.ui st))) as [| c t] eqn:Htrim.
  - unfold App.handleSubmit. rewrite Htrim. exact Hrest.
  - rewrite (handleSubmit_run env st Htrim). cbv zeta.
    destruct (App.generatePDF env (c :: t) _) as [r st1].
    simpl. repeat split.
Qed.

Lemma session_returns_to_rest_witness :
  UI.loadingHidden
    (App.ui (App.session [App.Input [23567; 26126]%N; App.Submit demoEnv]
                         (App.mk None (restingUI []) []))) = true
  /\ UI.formHidden
       (App.ui (App.session [App.Input [23567; 26126]%N; App.Submit demoEnv]
                            (App.mk None (restingUI []) []))) = false
  /\ UI.generateBtnDisabled
       (App.ui (App.session [App.Input [23567; 26126]%N; App.Submit demoEnv]
                            (App.mk None (restingUI []) []))) = false.
Proof.
  apply (@session_returns_to_rest
           [App.Input [23567; 26126]%N; App.Submit demoEnv]
           (App.mk None (restingUI []) [])).
  repeat split.
Defined.

(** X15. The counter shows the number of code units of the value as
    typed, white space included, after every edit, and submissions never
    change the value or the counter. *)
Theorem session_counter_is_length (evs : list App.PageEvent) (st : App.t) :
  UI.charCountText (App.ui st) = length (UI.nameInputValue (App.ui st)) ->
  UI.charCountText (App.ui (App.session evs st))
  = length (UI.nameInputValue (App.ui (App.session evs st))).
Proof.
  revert st; induction evs as [| ev evs IH]; intros st Hcount;
    [exact Hcount |].
  change (App.session (ev :: evs) st)
    with (App.session evs (App.dispatch st ev)).
  apply IH. destruct ev as [value | env]; simpl; [reflexivity |].
  destruct (trim (UI.nameInputValue (App.ui st))) as [| c t] eqn:Htrim.
  - unfold App.handleSubmit. rewrite Htrim. exact Hcount.
  - rewrite (handleSubmit_run env st Htrim). cbv zeta.
    match goal with |- context [App.generatePDF env (c :: t) ?s] =>
      pose proof (generatePDF_run env (c :: t) s) as Hrun;
      destruct (App.generatePDF env (c :: t) s) as [r st1] end.
    destruct Hrun as (calls & _ & Hout).
    destruct r as [[] | e].
    + destruct Hout as (resp & tb & fb & doc & f & w & h & others & pg & b
                        & _ & _ & _ & _ & _ & _ & _ & _ & _ & _ & Hui).
      rewrite Hui. simpl. exact Hcount.
    + destruct Hout as [_ Hui]. rewrite Hui. simpl. exact Hcount.
Qed.

Lemma session_counter_is_length_witness :
  UI.charCountText
    (App.ui (App.session [App.Input [32; 23567; 26126]%N; App.Submit demoEnv]
                         (App.mk None (restingUI []) [])))
  = length
      (UI.nameInputValue
         (App.ui (App.session [App.Input [32; 23567; 26126]%N;
                               App.Submit demoEnv]
                              (App.mk None (restingUI []) [])))).
Proof.
  apply (@session_counter_is_length
           [App.Input [32; 23567; 26126]%N; App.Submit demoEnv]
           (App.mk None (restingUI []) [])).
  reflexivity.
Defined.

(** X16. When the answer for the template is not [ok], a submission of a
    value that is not blank stops there: the only call made is the fetch
    of the template (the font is not fetched), the cache is untouched,
    nothing is downloaded, and the error banner shows the failure text
    with the message of [templateError]. *)
Theorem template_failure_is_reported (env : App.Env) (st : App.t)
        (response : App.Response) :
  trim (UI.nameInputValue (App.ui st)) <> [] ->
  App.fetch env App.pdfPath = Normal response ->
  App.ok response = false ->
  let st' := snd (App.handleSubmit env st) in
  App.events st' = App.events st ++ [Fetch App.pdfPath]
  /\ App.cachedFontBytes st' = App.cachedFontBytes st
  /\ UI.errorHidden (App.ui st') = false
  /\ UI.errorText (App.ui st') = App.failureText App.templateError
  /\ UI.successHidden (App.ui st') = true.
Proof.
  intros Hname Hfetch Hok.
  destruct (trim (UI.nameInputValue (App.ui st))) as [| c t] eqn:Htrim;
    [congruence |].
  rewrite (handleSubmit_run env st Htrim). cbv zeta.
  unfold App.generatePDF, App.andThen, App.fetchFrom, App.record, App.await,
    App.throw.
  simpl. rewrite Hfetch, Hok. simpl. repeat split.
Qed.

Lemma template_failure_is_reported_witness :
  let env :=
    {| App.fetch := fun _ => Normal {| App.ok := false;
                                       App.arrayBuffer := Normal [] |};
       App.load := App.load demoEnv;
       App.embedFont := App.embedFont demoEnv;
       App.save := App.save demoEnv;
       App.undefinedTypeError := App.undefinedTypeError demoEnv |} in
  let st := App.mk None (restingUI [23567; 26126]%N) [] in
  let st' := snd (App.handleSubmit env st) in
  App.events st' = App.events st ++ [Fetch App.pdfPath]
  /\ App.cachedFontBytes st' = App.cachedFontBytes st
  /\ UI.errorHidden (App.ui st') = false
  /\ UI.errorText (App.ui st') = App.failureText App.templateError
  /\ UI.successHidden (App.ui st') = true.
Proof.
  intros env st.
  apply (@template_failure_is_reported env st
           {| App.ok := false; App.arrayBuffer := Normal [] |}).
  - discriminate.
  - reflexivity.
  - reflexivity.
Defined.

(** X17. With an empty cache, a template that loads and an answer for the
    font that is not [ok], a submission of a value that is not blank
    fetches the template and then the font, reports [fontError] in the
    error banner, downloads nothing, and leaves the cache empty, so that
    the next submission fetches the font anew. *)
Theorem font_failure_is_not_cached (env : App.Env) (st : App.t)
        (pdfResponse fontResponse : App.Response) (pdfBytes : bytes) :
  trim (UI.nameInputValue (App.ui st)) <> [] ->
  App.cachedFontBytes st = None ->
  App.fetch env App.pdfPath = Normal pdfResponse ->
  App.ok pdfResponse = true ->
  App.arrayBuffer pdfResponse = Normal pdfBytes ->
  App.fetch env App.fontPath = Normal fontResponse ->
  App.ok fontResponse = false ->
  let st' := snd (App.handleSubmit env st) in
  App.events st' = App.events st ++ [Fetch App.pdfPath; Fetch App.fontPath]
  /\ App.cachedFontBytes st' = None
  /\ UI.errorHidden (App.ui st') = false
  /\ UI.errorText (App.ui st') = App.failureText App.fontError
  /\ UI.successHidden (App.ui st') = true.
Proof.
  intros Hname Hcache Hpdf Hok Hbytes Hfont Hnot.
  destruct (trim (UI.nameInputValue (App.ui st))) as [| c t] eqn:Htrim;
    [congruence |].
  rewrite (handleSubmit_run env st Htrim). cbv zeta.
  unfold App.generatePDF, App.loadFont, App.andThen, App.fetchFrom,
    App.record, App.await, App.throw.
  simpl. rewrite Hpdf, Hok. simpl. rewrite Hbytes, Hcache. simpl.
  rewrite Hfont, Hnot. simpl. rewrite <- app_assoc. repeat split.
Qed.

Lemma font_failure_is_not_cached_witness :
  let env :=
    {| App.fetch := fun path =>
         Normal {| App.ok := String.eqb path App.pdfPath;
                   App.arrayBuffer := Normal [] |};
       App.load := App.load demoEnv;
       App.embedFont := App.embedFont demoEnv;
       App.save := App.save demoEnv;
       App.undefinedTypeError := App.undefinedTypeError demoEnv |} in
  let st := App.mk None (restingUI [23567; 26126]%N) [] in
  let st' := snd (App.handleSubmit env st) in
  App.events st' = App.events st ++ [Fetch App.pdfPath; Fetch App.fontPath]
  /\ App.cachedFontBytes st' = None
  /\ UI.errorHidden (App.ui st') = false
  /\ UI.errorText (App.ui st') = App.failureText App.fontError
  /\ UI.successHidden (App.ui st') = true.
Proof.
  intros env st.
  apply (@font_failure_is_not_cached env st
           {| App.ok := true; App.arrayBuffer := Normal [] |}
           {| App.ok := false; App.arrayBuffer := Normal [] |} []).
  - discriminate.
  - reflexivity.
  - reflexivity.
  - reflexivity.
  - reflexivity.
  - reflexivity.
  - reflexivity.
Defined.

(** A submission of " 小明 " on a fresh page: both files are fetched,
    the file is downloaded, the font is cached. *)
Example first_submission :
  let st' := snd (App.handleSubmit demoEnv
                    (App.mk None (restingUI [32; 23567; 26126; 32]%N) [])) in
  App.events st'
  = [Fetch App.pdfPath; Fetch App.fontPath;
     Download (App.filenameFor [23567; 26126]%N) []]
  /\ App.cachedFontBytes st' = Some []
  /\ UI.successHidden (App.ui st') = false
  /\ UI.errorHidden (App.ui st') = true.
Proof. vm_compute. repeat split. Qed.

(** ** The drawn page and the name, for every font *)

Lemma forEachFrom_drawLine_texts (config : Config.t) (customFont : Font)
      (width height : Q) (lines todo : list jsString) (index : nat)
      (page0 page : Page) :
  forEachFrom (drawLine config customFont width height lines) todo index page0
  = Normal page ->
  map DrawText.text page = map DrawText.text page0 ++ todo.
Proof.
  revert index page0; induction todo as [| line todo IH];
    intros index page0 H; simpl in H.
  - injection H as <-. now rewrite app_nil_r.
  - unfold drawLine at 1 in H.
    destruct (widthOfTextAtSize customFont line (fontSize config));
      simpl in H; [| discriminate].
    apply IH in H. rewrite H. unfold drawText.
    rewrite map_app. simpl. now rewrite <- app_assoc.
Qed.

(** X18. Whenever the layout of [generatePDF] returns a page, with any
    font, throwing or not, the texts of the drawn runs, joined in drawing
    order, are the name itself, no run is empty, and a non-empty name
    gives at least one run. *)
Theorem generatePDF_draws_the_name (config : Config.t) (customFont : Font)
        (width height : Q) (name : jsString) (page : Page) :
  generatePDF config customFont width height name = Normal page ->
  concat (map DrawText.text page) = name
  /\ Forall (fun run => DrawText.text run <> []) page
  /\ (name <> [] -> page <> []).
Proof.
  unfold generatePDF. intro H.
  destruct (breakTextIntoLines_outcome customFont (fontSize config)
                                       (maxLineWidth width) name)
    as [(lines & Hlines & Hconcat & Hne) | (e & Hthrow)].
  2:{ rewrite Hthrow in H. discriminate. }
  rewrite Hlines in H. cbn [bind] in H.
  unfold drawLines, forEach in H.
  apply forEachFrom_drawLine_texts in H. simpl in H.
  split; [now rewrite H |].
  split.
  - apply Forall_forall. intros run Hin.
    rewrite Forall_forall in Hne. apply Hne. rewrite <- H.
    now apply in_map.
  - intros Hname Hpage. subst page. simpl in H. subst lines.
    simpl in Hconcat. congruence.
Qed.

Lemma generatePDF_draws_the_name_witness :
  exists page,
    generatePDF CONFIG (monospaced 1000) 595 842
                [23567; 26126; 21516; 22909; 20320]%N
    = Normal page
    /\ concat (map DrawText.text page) = [23567; 26126; 21516; 22909; 20320]%N
    /\ Forall (fun run => DrawText.text run <> []) page
    /\ ([23567; 26126; 21516; 22909; 20320]%N <> [] -> page <> []).
Proof.
  eexists. split; [reflexivity |].
  apply (@generatePDF_draws_the_name CONFIG (monospaced 1000) 595 842
           [23567; 26126; 21516; 22909; 20320]%N).
  reflexivity.
Defined.

(** * The positioning in binary64: properties *)

Section Binary64Facts.
Import PrimFloat.










(** X8, in the arithmetic of the script. Exact spacing fails: with
    [CONFIG], a page 200.21 high and three lines, the second and third
    lines are 167.99999999999997 apart while [lineHeight] is 168. *)
Example spacing_not_exact_in_binary64 :
  let height := 0x1.906b851eb851fp+7%float in
  (Binary64.lineY Binary64.CONFIG height 3 1
   - Binary64.lineY Binary64.CONFIG height 3 2
   =? Binary64.lineHeight Binary64.CONFIG)%float = false.
Proof. vm_compute. reflexivity. Qed.


End Binary64Facts.
